(** * Gestion escolar: the relational store, its write handlers and its
      two read-side aggregations (src/gestion-escolar/streamlit_app.py).

    The script keeps everything in seven SQLite tables and one directory of
    uploaded files.  Each Streamlit button handler is embedded as a function
    from the store (and the widget values) to the new store and the notice
    shown to the user; each SQL statement is written out over lists of rows.

    Numbers.  A REAL column holds the number the form gave, a rational; what
    SQLite keeps of it is the double nearest to it.  The two aggregations are
    given twice.  [avg_df] and [att_df] read the arithmetic of the query and
    of pandas over the rationals, extended with nan and the two infinities as
    float64 division produces them: this reading decides which rows there
    are, when a value is nan and between which bounds it lies.  [avg_df64]
    and [att_df64] run the same arithmetic in IEEE binary64, every product,
    sum and quotient rounded to a double as SQLite and numpy round it: this
    reading decides the last decimal of a rounded value. *)

From Stdlib Require Import ZArith QArith Qround Qabs Lia Lqa Ascii String.
From Stdlib Require SpecFloat.
From stdpp Require Import base decidable option list sorting strings pretty gmap.

Local Open Scope Z_scope.

(** ** Python exceptions and Streamlit notices *)

Inductive exn :=
  | IntegrityError   (* sqlite3.IntegrityError: a UNIQUE column rejected the row *)
  | OSError          (* open / write / unlink failed *)
  | IndexError       (* .iloc[0] on an empty frame *)
  | OtherError.      (* any other exception a bound parameter may raise *)

Inductive result (A : Type) :=
  | Ok (a : A)
  | Raise (e : exn).
Arguments Ok {A} a.
Arguments Raise {A} e.

Inductive notice :=
  | success (s : string)
  | warning (s : string)
  | error (s : string)
  | info (s : string).

(** How a handler ends: with a notice on the page, or with an exception that
    no [except] caught and that reaches Streamlit. *)
Inductive outcome :=
  | shown (n : notice)
  | uncaught (e : exn).

#[global] Instance exn_eq_dec : EqDecision exn.
Proof. solve_decision. Defined.
#[global] Instance notice_eq_dec : EqDecision notice.
Proof. solve_decision. Defined.

(** ** float64 values as pandas produces them, over the rationals *)

Inductive float64 :=
  | Fin (q : Q)
  | PInf
  | NInf
  | NaN.

(** [a / b] on two finite float64 values: no exception, x/0 is an infinity of
    the sign of x and 0/0 is nan. *)
Definition fdiv (a b : Q) : float64 :=
  if Qeq_bool b 0 then
    match (a ?= 0)%Q with
    | Eq => NaN
    | Gt => PInf
    | Lt => NInf
    end
  else Fin (a / b)%Q.

Definition fmul (x : float64) (k : Q) : float64 :=
  match x with
  | Fin q => Fin (q * k)%Q
  | other => other
  end.

(** numpy's rint: the nearest integer, ties to the even one. *)
Definition rint (q : Q) : Z :=
  let f := Qfloor q in
  match (q - inject_Z f ?= 1 # 2)%Q with
  | Lt => f
  | Gt => f + 1
  | Eq => if Z.even f then f else f + 1
  end.

Definition pow10 (d : nat) : Q := inject_Z (10 ^ Z.of_nat d).

(** [Series.round(d)]: scale by 10^d, rint, scale back; nan and the
    infinities pass through. *)
Definition round_q (d : nat) (q : Q) : Q :=
  Qred (inject_Z (rint (q * pow10 d)) / pow10 d).

Definition round (d : nat) (x : float64) : float64 :=
  match x with
  | Fin q => Fin (round_q d q)
  | other => other
  end.

(** pandas' [isna]. *)
Definition isna (x : float64) : bool :=
  match x with NaN => true | _ => false end.

(** ** IEEE binary64 *)

(** The doubles of SQLite, pandas and numpy: [spec_float] at precision 53
    with the operations of SpecFloat, which round to nearest, ties to even. *)
Module Binary64.
Import SpecFloat.

Definition float : Type := spec_float.
Definition prec : Z := 53.
Definition emax : Z := 1024.

Definition add : float -> float -> float := SFadd prec emax.
Definition mul : float -> float -> float := SFmul prec emax.
Definition div : float -> float -> float := SFdiv prec emax.

(** The double nearest to an integer: an int64 column turned into float64. *)
Definition of_Z (n : Z) : float := binary_normalize prec emax n 0 false.

(** The double nearest to a rational: the value of a REAL parameter. *)
Definition of_Q (q : Q) : float :=
  let r := Qred q in
  let nearest (s : bool) (n : positive) :=
    let '(m, e, l) := SFdiv_core_binary prec emax (Zpos n) 0 (Zpos (Qden r)) 0 in
    binary_round_aux prec emax s m e l in
  match Qnum r with
  | Z0 => S754_zero false
  | Zpos n => nearest false n
  | Zneg n => nearest true n
  end.

(** The number a finite double stands for. *)
Definition to_Q (x : float) : option Q :=
  match x with
  | S754_zero _ => Some 0%Q
  | S754_finite s m e =>
      Some (inject_Z (cond_Zopp s (Zpos m))
            * (if 0 <=? e then inject_Z (2 ^ e) else / inject_Z (2 ^ (- e))))%Q
  | _ => None
  end.

(** numpy's rint on a double: the nearest integer, ties to the even one; a
    zero result keeps the sign. *)
Definition rint (x : float) : float :=
  match x with
  | S754_finite s m e =>
      match to_Q x with
      | Some q => let n := rint q in if n =? 0 then S754_zero s else of_Z n
      | None => x
      end
  | _ => x
  end.

(** [Series.round(d)] as numpy computes it: multiply by 10^d, rint, divide by
    10^d, each of the three in binary64. *)
Definition round (d : nat) (x : float) : float :=
  let p := of_Z (10 ^ Z.of_nat d) in
  div (rint (mul x p)) p.

(** SQLite's SUM over REAL values: additions from 0.0 on, in scan order. *)
Definition sum (l : list float) : float := foldl add (S754_zero false) l.

End Binary64.

(** ** The tables *)

(** One record per table, one field per column.  A column is an [option]
    where the script can leave it NULL (a name read from a CSV, and extra and
    note, which no statement writes) and plain where every INSERT of the
    script supplies a value.  REAL columns hold rationals. *)

Module Student.
Record row := mk {
  id : Z;
  student_code : string;
  first_name : option string;
  last_name : option string;
  extra : option string }.
End Student.

Module Teacher.
Record row := mk {
  id : Z;
  name : string;
  email : string }.
End Teacher.

Module Subject.
Record row := mk {
  id : Z;
  name : string;
  description : string }.
End Subject.

Module Class.
Record row := mk {
  id : Z;
  subject_id : option Z;
  teacher_id : option Z;
  class_name : string;
  schedule : string }.
End Class.

Module Attendance.
Record row := mk {
  id : Z;
  class_id : Z;
  student_id : Z;
  date : string;
  present : Z;
  note : option string }.
End Attendance.

Module Grade.
Record row := mk {
  id : Z;
  class_id : Z;
  student_id : Z;
  date : string;
  grade : Q;
  weight : Q;
  description : string }.
End Grade.

Module Exam.
Record row := mk {
  id : Z;
  file_name : string;
  uploaded_by : string;
  subject_id : option Z;
  class_id : option Z;
  upload_date : string;
  original_name : string }.
End Exam.

(** A table with INTEGER PRIMARY KEY AUTOINCREMENT: its rows in rowid order
    and the largest rowid ever handed out (sqlite_sequence). *)
Record table (R : Type) := mk_table {
  rows : list R;
  sqlite_seq : Z }.
Arguments mk_table {R} rows sqlite_seq.
Arguments rows {R} t.
Arguments sqlite_seq {R} t.

Record db := mk_db {
  students : table Student.row;
  teachers : table Teacher.row;
  subjects : table Subject.row;
  classes : table Class.row;
  attendance : table Attendance.row;
  grades : table Grade.row;
  exams : table Exam.row }.

Definition empty_table {R} : table R := mk_table [] 0.

(** The store right after [init_db] on a new file. *)
Definition init_db : db :=
  mk_db empty_table empty_table empty_table empty_table
        empty_table empty_table empty_table.

Definition max_list (l : list Z) : Z := foldr Z.max 0 l.

(** The rowid AUTOINCREMENT gives to the next row. *)
Definition next_id {R} (rowid : R -> Z) (t : table R) : Z :=
  Z.max (sqlite_seq t) (max_list (rowid <$> rows t)) + 1.

(** INSERT of one row, built from its new rowid. *)
Definition insert_row {R} (rowid : R -> Z) (t : table R) (mk : Z -> R) : table R :=
  let i := next_id rowid t in
  mk_table (rows t ++ [mk i]) i.

(** ** SQL helpers *)

(** The distinct keys of GROUP BY, each with the rows of its group in scan
    order.  SQL leaves the order of the groups open; here it is the order of
    first appearance. *)
Definition group_by {A K} `{EqDecision K} (key : A -> K) (l : list A)
  : list (K * list A) :=
  (fun k => (k, filter (fun x => key x = k) l)) <$> remove_dups (key <$> l).

(** SUM over the rows of a group, of a REAL and of an INTEGER expression. *)
Definition sum_Q (l : list Q) : Q := foldr Qplus 0%Q l.
Definition sum_Z (l : list Z) : Z := foldr Z.add 0 l.

(** ** Pagina "Notas" *)

(** FROM x JOIN students s ON x.student_id=s.id, for the rows [l] of x. *)
Definition join_students {A} (student_id : A -> Z) (l : list A)
    (ss : list Student.row) : list (A * Student.row) :=
  a ← l;
  s ← filter (fun s => student_id a = Student.id s) ss;
  [(a, s)].

(** FROM grades g JOIN students s ON g.student_id=s.id WHERE g.class_id=? *)
Definition grades_join (d : db) (class_id : Z) : list (Grade.row * Student.row) :=
  join_students Grade.student_id
    (filter (fun g => Grade.class_id g = class_id) (rows (grades d)))
    (rows (students d)).

Module Avg.
Record row := mk {
  id : Z;
  first_name : option string;
  last_name : option string;
  suma : Q;
  pesos : Q;
  promedio : float64 }.
End Avg.

(** One row of [avg_q] from its group, followed by the [promedio] column of
    line 306, read over the rationals ([avg_row64] is the row as computed).
    The bare columns s.first_name and s.last_name are read from the first row
    of the group. *)
Definition avg_row (group : Z * list (Grade.row * Student.row)) : Avg.row :=
  let grp := group.2 in
  let suma := sum_Q ((fun j => Grade.grade j.1 * Grade.weight j.1)%Q <$> grp) in
  let pesos := sum_Q ((fun j => Grade.weight j.1) <$> grp) in
  Avg.mk group.1
    (head grp ≫= fun j => Student.first_name j.2)
    (head grp ≫= fun j => Student.last_name j.2)
    suma pesos (round 2 (fdiv suma pesos)).

Definition avg_df (d : db) (class_id : Z) : list Avg.row :=
  avg_row <$> group_by (fun j => Student.id j.2) (grades_join d class_id).

(** What the page shows under "Promedio ponderado por estudiante": nothing
    but a notice when [grades_df] is empty, else the three columns
    first_name, last_name, promedio of [avg_df]. *)
Definition notas_promedios (d : db) (class_id : Z)
  : notice + list (option string * option string * float64) :=
  match grades_join d class_id with
  | [] => inl (info "No hay notas registradas para esta clase.")
  | _ => inr ((fun r => (Avg.first_name r, Avg.last_name r, Avg.promedio r))
                <$> avg_df d class_id)
  end.

(** The handler of "Guardar nota"; [grade] and [weight] come from number
    inputs bounded by [0, 100] and [0, 10]. *)
Definition guardar_nota (class_id student : Z) (now : string) (grade weight : Q)
    (desc : string) (d : db) : db * notice :=
  (mk_db (students d) (teachers d) (subjects d) (classes d) (attendance d)
     (insert_row Grade.id (grades d)
        (fun i => Grade.mk i class_id student now grade weight desc))
     (exams d),
   success "Nota registrada").

(** ** Pagina "Consultar alumnos" *)

(** ORDER BY on a TEXT column: NULL first, then byte order. *)
Definition text_leb (x y : option string) : bool :=
  match x, y with
  | None, _ => true
  | Some _, None => false
  | Some a, Some b => String.leb a b
  end.

Definition by_name (s1 s2 : Student.row) : Prop :=
  (if decide (Student.last_name s1 = Student.last_name s2)
   then text_leb (Student.first_name s1) (Student.first_name s2)
   else text_leb (Student.last_name s1) (Student.last_name s2)) = true.

#[global] Instance by_name_dec s1 s2 : Decision (by_name s1 s2).
Proof. unfold by_name. apply _. Defined.

(** SELECT ... FROM students ORDER BY last_name, first_name *)
Definition students_df (d : db) : list Student.row :=
  merge_sort by_name (rows (students d)).

(** [present[k] = v] on a dict kept as the list of its items in insertion
    order. *)
Fixpoint dict_set (k : Z) (v : bool) (items : list (Z * bool)) : list (Z * bool) :=
  match items with
  | [] => [(k, v)]
  | (k', v') :: rest =>
      if decide (k = k') then (k, v) :: rest else (k', v') :: dict_set k v rest
  end.

(** The dict [present]: one checkbox per listed student; [checked] is the
    state of the checkbox of each student id for the chosen date. *)
Definition present_dict (checked : Z -> bool) (d : db) : list (Z * bool) :=
  foldl (fun items r => dict_set (Student.id r) (checked (Student.id r)) items)
        [] (students_df d).

Definition same_key (class_id sid : Z) (date : string) (a : Attendance.row) : Prop :=
  Attendance.class_id a = class_id ∧ Attendance.student_id a = sid
  ∧ Attendance.date a = date.

#[global] Instance same_key_dec c s dt a : Decision (same_key c s dt a).
Proof. unfold same_key. apply _. Defined.

(** SELECT id FROM attendance WHERE class_id=? AND student_id=? AND date=?,
    then [fetchone]. *)
Definition fetch_attendance_id (d : db) (class_id sid : Z) (date : string) : option Z :=
  Attendance.id <$> head (filter (same_key class_id sid date) (rows (attendance d))).

Definition set_present (p : Z) (a : Attendance.row) : Attendance.row :=
  Attendance.mk (Attendance.id a) (Attendance.class_id a) (Attendance.student_id a)
    (Attendance.date a) p (Attendance.note a).

Definition with_attendance (d : db) (t : table Attendance.row) : db :=
  mk_db (students d) (teachers d) (subjects d) (classes d) t (grades d) (exams d).

(** UPDATE attendance SET present=? WHERE id=? *)
Definition update_present (d : db) (p i : Z) : db :=
  with_attendance d
    (mk_table
       ((fun a => if decide (Attendance.id a = i) then set_present p a else a)
          <$> rows (attendance d))
       (sqlite_seq (attendance d))).

(** INSERT INTO attendance(class_id, student_id, date, present): the column
    note is not listed and stays NULL. *)
Definition insert_attendance (d : db) (class_id sid : Z) (date : string) (p : Z) : db :=
  with_attendance d
    (insert_row Attendance.id (attendance d)
       (fun i => Attendance.mk i class_id sid date p None)).

Definition bit (b : bool) : Z := if b then 1 else 0.

(** One turn of the loop over [present.items()]. *)
Definition save_one (class_id : Z) (date : string) (d : db) (item : Z * bool) : db :=
  match fetch_attendance_id d class_id item.1 date with
  | Some found => update_present d (bit item.2) found
  | None => insert_attendance d class_id item.1 date (bit item.2)
  end.

Definition save_items (class_id : Z) (date : string) (items : list (Z * bool)) (d : db) : db :=
  foldl (save_one class_id date) d items.

(** The handler of "Guardar asistencia". *)
Definition guardar_asistencia (class_id : Z) (date : string) (checked : Z -> bool)
    (d : db) : db * notice :=
  (save_items class_id date (present_dict checked d) d,
   success "Asistencias guardadas.").

(** FROM attendance a JOIN students s ON a.student_id=s.id WHERE a.class_id=? *)
Definition att_join (d : db) (class_id : Z) : list (Attendance.row * Student.row) :=
  join_students Attendance.student_id
    (filter (fun a => Attendance.class_id a = class_id) (rows (attendance d)))
    (rows (students d)).

Module Att.
Record row := mk {
  student_id : Z;
  first_name : option string;
  last_name : option string;
  presents : Z;
  total : Z;
  percent : float64 }.
End Att.

Definition att_key (j : Attendance.row * Student.row) : Z * option string * option string :=
  (Attendance.student_id j.1, Student.first_name j.2, Student.last_name j.2).

(** One row of the summary query from its group, with SUM(a.present) and
    COUNT(a.id), followed by the [percent] column of line 264, read over the
    rationals ([att_row64] is the row as computed). *)
Definition att_row
    (group : (Z * option string * option string) * list (Attendance.row * Student.row))
  : Att.row :=
  let presents := sum_Z ((fun j => Attendance.present j.1) <$> group.2) in
  let total := Z.of_nat (length group.2) in
  Att.mk group.1.1.1 group.1.1.2 group.1.2 presents total
    (round 1 (fmul (fdiv (inject_Z presents) (inject_Z total)) 100)).

Definition att_df (d : db) (class_id : Z) : list Att.row :=
  att_row <$> group_by att_key (att_join d class_id).

Definition resumen_asistencia (d : db) (class_id : Z) : notice + list Att.row :=
  match att_df d class_id with
  | [] => inl (info "Aún no hay registros de asistencia para esta clase.")
  | att => inr att
  end.

(** ** The two aggregations in binary64 *)

Module Avg64.
Record row := mk {
  id : Z;
  first_name : option string;
  last_name : option string;
  suma : Binary64.float;
  pesos : Binary64.float;
  promedio : Binary64.float }.
End Avg64.

(** One row of [avg_q] and its [promedio], lines 303 to 306, as computed:
    g.grade * g.weight is a product of doubles, each SUM adds doubles, and
    suma / pesos and round(2) are float64 operations. *)
Definition avg_row64 (group : Z * list (Grade.row * Student.row)) : Avg64.row :=
  let grp := group.2 in
  let suma :=
    Binary64.sum ((fun j => Binary64.mul (Binary64.of_Q (Grade.grade j.1))
                                         (Binary64.of_Q (Grade.weight j.1))) <$> grp) in
  let pesos := Binary64.sum ((fun j => Binary64.of_Q (Grade.weight j.1)) <$> grp) in
  Avg64.mk group.1
    (head grp ≫= fun j => Student.first_name j.2)
    (head grp ≫= fun j => Student.last_name j.2)
    suma pesos (Binary64.round 2 (Binary64.div suma pesos)).

Definition avg_df64 (d : db) (class_id : Z) : list Avg64.row :=
  avg_row64 <$> group_by (fun j => Student.id j.2) (grades_join d class_id).

Module Att64.
Record row := mk {
  student_id : Z;
  first_name : option string;
  last_name : option string;
  presents : Z;
  total : Z;
  percent : Binary64.float }.
End Att64.

(** [presents / total * 100] and [round(1)] of line 264 as computed: the two
    int64 columns become doubles, and the quotient, the product and the
    rounding are float64 operations. *)
Definition percent64 (presents total : Z) : Binary64.float :=
  Binary64.round 1
    (Binary64.mul (Binary64.div (Binary64.of_Z presents) (Binary64.of_Z total))
                  (Binary64.of_Z 100)).

Definition att_row64
    (group : (Z * option string * option string) * list (Attendance.row * Student.row))
  : Att64.row :=
  let presents := sum_Z ((fun j => Attendance.present j.1) <$> group.2) in
  let total := Z.of_nat (length group.2) in
  Att64.mk group.1.1.1 group.1.1.2 group.1.2 presents total (percent64 presents total).

Definition att_df64 (d : db) (class_id : Z) : list Att64.row :=
  att_row64 <$> group_by att_key (att_join d class_id).

(** A row of the summary read over the rationals, with its percent column
    computed in doubles from the two counts. *)
Definition att_row_as_computed (r : Att.row) : Att64.row :=
  Att64.mk (Att.student_id r) (Att.first_name r) (Att.last_name r)
    (Att.presents r) (Att.total r) (percent64 (Att.presents r) (Att.total r)).

(** ** Pagina "Clases & Materias": importar alumnos *)

Definition with_students (d : db) (t : table Student.row) : db :=
  mk_db t (teachers d) (subjects d) (classes d) (attendance d) (grades d) (exams d).

(** INSERT INTO students(student_code, first_name, last_name); the column
    student_code is UNIQUE. *)
Definition insert_student (d : db) (code : string) (first last : option string)
  : result db :=
  if decide (code ∈ Student.student_code <$> rows (students d))
  then Raise IntegrityError
  else Ok (with_students d
             (insert_row Student.id (students d)
                (fun i => Student.mk i code first last None))).

Definition required : gset string :=
  {[ "student_code"; "first_name"; "last_name" ]}.

Section Importar.
(** The values pandas hands out for the fields of a CSV row are Python
    objects of several types; [str] is Python's [str()] on them and [bind]
    is what sqlite3 makes of one as a parameter for a TEXT column: the
    stored text, NULL, or an exception for a type it does not adapt. *)
Context {cell : Type}.
Variable str : cell -> string.
Variable bind : cell -> result (option string).

(** The frame read from the file: its column labels, and its rows as
    [iterrows] yields them, each a Series indexed by column label. *)
Record DataFrame := mk_frame {
  columns : list string;
  iterrows : list (string -> cell) }.

(** [execute] of the INSERT with the three parameters of line 371. *)
Definition execute_insert_student (d : db) (code : string) (first last : cell)
  : result db :=
  match bind first, bind last with
  | Ok f, Ok l => insert_student d code f l
  | Raise e, _ => Raise e
  | _, Raise e => Raise e
  end.

(** The body of the loop: try the INSERT, [except Exception: pass]. *)
Definition import_row (d : db) (r : string -> cell) : db :=
  match execute_insert_student d (str (r "student_code"))
          (r "first_name") (r "last_name") with
  | Ok d' => d'
  | Raise _ => d
  end.

(** The handler of "Importar CSV". *)
Definition importar_csv (cfile : option DataFrame) (d : db) : db * notice :=
  match cfile with
  | None => (d, warning "Suba un archivo CSV primero")
  | Some df =>
      if decide (required ⊆ list_to_set (columns df))
      then (foldl import_row d (iterrows df),
            success "Alumnos importados (se ignoraron duplicados)")
      else (d, error "CSV no tiene las columnas requeridas")
  end.
End Importar.
Arguments DataFrame cell : clear implicits.
Arguments mk_frame {cell} columns iterrows.
Arguments columns {cell} d.
Arguments iterrows {cell} d.

(** ** Pagina "Profesores" *)

(** Text is held as its UTF-8 encoding, one [ascii] per byte.  These are
    the code points for which [str.isspace] holds, the characters that
    [str.strip()] removes: the ASCII ones, U+0085, U+00A0, U+1680,
    U+2000 to U+200A, U+2028, U+2029, U+202F, U+205F and U+3000. *)
Definition white_space : list N :=
  [9; 10; 11; 12; 13; 28; 29; 30; 31; 32; 133; 160; 5760;
   8192; 8193; 8194; 8195; 8196; 8197; 8198; 8199; 8200; 8201; 8202;
   8232; 8233; 8239; 8287; 12288]%N.

(** The bytes of the UTF-8 encoding of a code point. *)
Definition utf8 (cp : N) : list ascii :=
  ascii_of_N <$>
    (if (cp <? 128)%N then [cp]
     else if (cp <? 2048)%N then [192 + cp / 64; 128 + cp mod 64]
     else if (cp <? 65536)%N then
       [224 + cp / 4096; 128 + cp / 64 mod 64; 128 + cp mod 64]
     else [240 + cp / 262144; 128 + cp / 4096 mod 64; 128 + cp / 64 mod 64;
           128 + cp mod 64])%N.

Definition spaces : list (list ascii) := utf8 <$> white_space.

(** [l] without the character it starts with, when that is one of [ws]. *)
Definition skip (ws : list (list ascii)) (l : list ascii) : option (list ascii) :=
  head (omap (fun w => if decide (w `prefix_of` l)
                       then Some (drop (length w) l) else None) ws).

(** Characters of [ws] are taken off the front as long as there is one; [n]
    bounds the number of turns. *)
Fixpoint lstrip_with (ws : list (list ascii)) (n : nat) (l : list ascii) : list ascii :=
  match n with
  | O => l
  | S n' =>
      match skip ws l with
      | Some r => lstrip_with ws n' r
      | None => l
      end
  end.

Definition lstrip_chars (l : list ascii) : list ascii :=
  lstrip_with spaces (length l) l.

(** The same from the end: in UTF-8 a text ends with a character exactly
    when its bytes end with the bytes of that character. *)
Definition rstrip_chars (l : list ascii) : list ascii :=
  reverse (lstrip_with (reverse <$> spaces) (length l) (reverse l)).

Definition lstrip (s : string) : string :=
  string_of_list_ascii (lstrip_chars (list_ascii_of_string s)).

Definition rstrip (s : string) : string :=
  string_of_list_ascii (rstrip_chars (list_ascii_of_string s)).

(** [str.strip()]. *)
Definition strip (s : string) : string := rstrip (lstrip s).

Definition with_teachers (d : db) (t : table Teacher.row) : db :=
  mk_db (students d) t (subjects d) (classes d) (attendance d) (grades d) (exams d).

(** INSERT INTO teachers(name, email); the column name is UNIQUE. *)
Definition insert_teacher (d : db) (name email : string) : result db :=
  if decide (name ∈ Teacher.name <$> rows (teachers d))
  then Raise IntegrityError
  else Ok (with_teachers d
             (insert_row Teacher.id (teachers d)
                (fun i => Teacher.mk i name email))).

(** The handler of "Agregar profesor": only sqlite3.IntegrityError is caught. *)
Definition agregar_profesor (name email : string) (d : db) : db * outcome :=
  if decide (strip name = "") then (d, shown (warning "Ingrese un nombre"))
  else
    match insert_teacher d (strip name) (strip email) with
    | Ok d' => (d', shown (success "Profesor agregado"))
    | Raise IntegrityError => (d, shown (error "Ya existe ese profesor"))
    | Raise e => (d, uncaught e)
    end.

(** ** Pagina "Ajustes / Exportar" *)

(** The frame of SELECT * FROM teachers that "Exportar CSV" serialises. *)
Definition exportar_teachers (d : db) : list Teacher.row := rows (teachers d).

(** ** Pagina "Cargar examenes" *)

(** The directory data/exams as the handlers use it.  Each operation returns
    the directory as it leaves it and the exception it raised, if any. *)
Class BlobStore (fs : Type) := {
  write_file : fs -> string -> list Byte.byte -> fs * option exn;
  unlink : fs -> string -> fs * option exn }.

(** A directory: its files by name, and whether it can be written to. *)
Record disk := mk_disk {
  files : gmap string (list Byte.byte);
  writable : bool }.

#[global] Instance disk_store : BlobStore disk := {
  write_file f name data :=
    if writable f then (mk_disk (<[name := data]> (files f)) true, None)
    else (f, Some OSError);
  unlink f name :=
    match files f !! name with
    | Some _ =>
        if writable f then (mk_disk (delete name (files f)) true, None)
        else (f, Some OSError)
    | None => (f, Some OSError)
    end }.

Definition with_exams (d : db) (t : table Exam.row) : db :=
  mk_db (students d) (teachers d) (subjects d) (classes d) (attendance d) (grades d) t.

(** The handler of "Subir examen".  [timestamp] and [now] are the two
    readings of the clock; a choice is the pair the selectbox returns, with
    no id for "-- Ninguna --". *)
Definition subir_examen {fs} `{BlobStore fs} (file : option (string * list Byte.byte))
    (uploaded_by : string) (subject_choice class_choice : option Z * string)
    (timestamp now : string) (d : db) (f : fs) : db * fs * outcome :=
  match file with
  | None => (d, f, shown (warning "Primero seleccione un archivo."))
  | Some (name, buffer) =>
      let safe_name := "exam_" +:+ timestamp +:+ "_" +:+ name in
      match write_file f safe_name buffer with
      | (f', Some e) => (d, f', uncaught e)
      | (f', None) =>
          (with_exams d
             (insert_row Exam.id (exams d)
                (fun i => Exam.mk i safe_name uploaded_by subject_choice.1
                            class_choice.1 now name)),
           f',
           shown (success ("Archivo subido como " +:+ safe_name
                           +:+ " y registrado correctamente.")))
      end
  end.

Module ExamView.
Record row := mk {
  id : Z;
  original_name : string;
  file_name : string;
  uploaded_by : string;
  upload_date : string;
  subject : option string;
  class : option string }.
End ExamView.

(** The right-hand rows a LEFT JOIN pairs with one left-hand row: the
    matching ones, or a single NULL row when nothing matches. *)
Definition left_join {B} (P : B -> Prop) `{forall b, Decision (P b)} (bs : list B)
  : list (option B) :=
  match filter P bs with
  | [] => [None]
  | m => Some <$> m
  end.

Definition newest_first (x y : ExamView.row) : Prop :=
  String.leb (ExamView.upload_date y) (ExamView.upload_date x) = true.

#[global] Instance newest_first_dec x y : Decision (newest_first x y).
Proof. unfold newest_first. apply _. Defined.

(** exams e LEFT JOIN subjects s LEFT JOIN classes c ORDER BY e.upload_date DESC *)
Definition exams_df (d : db) : list ExamView.row :=
  merge_sort newest_first
    (e ← rows (exams d);
     s ← left_join (fun s => Exam.subject_id e = Some (Subject.id s)) (rows (subjects d));
     c ← left_join (fun c => Exam.class_id e = Some (Class.id c)) (rows (classes d));
     [ExamView.mk (Exam.id e) (Exam.original_name e) (Exam.file_name e)
        (Exam.uploaded_by e) (Exam.upload_date e)
        (Subject.name <$> s) (Class.class_name <$> c)]).

(** DELETE FROM exams WHERE id=? *)
Definition delete_exam (d : db) (sel : Z) : db :=
  with_exams d
    (mk_table (filter (fun e => Exam.id e ≠ sel) (rows (exams d))) (sqlite_seq (exams d))).

(** The action "Eliminar" of "Ejecutar accion" on the selected id. *)
Definition eliminar_examen {fs} `{BlobStore fs} (sel : Z) (d : db) (f : fs)
  : db * fs * outcome :=
  match head (filter (fun r => ExamView.id r = sel) (exams_df d)) with
  | None => (d, f, uncaught IndexError)
  | Some row =>
      (* try: filepath.unlink()  except Exception: pass *)
      let f' := (unlink f (ExamView.file_name row)).1 in
      (delete_exam d sel, f', shown (success "Examen eliminado."))
  end.

(** ** Invariants of the store, and a small school *)

(** The GradeEntry rows of one student in one class. *)
Definition grade_entries (d : db) (class_id sid : Z) : list Grade.row :=
  filter (fun g => Grade.student_id g = sid)
    (filter (fun g => Grade.class_id g = class_id) (rows (grades d))).

(** The AttendanceRecord rows of one student in one class. *)
Definition attendance_records (d : db) (class_id sid : Z) : list Attendance.row :=
  filter (fun a => Attendance.student_id a = sid)
    (filter (fun a => Attendance.class_id a = class_id) (rows (attendance d))).

(** The entries [es] carry, in order, the (grade, weight) pairs [gw]. *)
Definition entries_are (es : list Grade.row) (gw : list (Q * Q)) : Prop :=
  Forall2 (fun g p => (Grade.grade g == p.1)%Q ∧ (Grade.weight g == p.2)%Q) es gw.

(** students.id is a PRIMARY KEY. *)
Definition students_pk (d : db) : Prop := NoDup (Student.id <$> rows (students d)).

(** students.student_code and teachers.name are UNIQUE. *)
Definition students_unique (d : db) : Prop :=
  NoDup (Student.student_code <$> rows (students d)).

Definition teachers_unique (d : db) : Prop :=
  NoDup (Teacher.name <$> rows (teachers d)).

(** A CSV row of text cells with the three required columns. *)
Definition fila (code first last : string) (col : string) : string :=
  if decide (col = "student_code") then code
  else if decide (col = "first_name") then first else last.

(** The template CSV of the import tab. *)
Definition plantilla : DataFrame string :=
  mk_frame ["student_code"; "first_name"; "last_name"]
    [fila "A001" "Juan" "Perez"; fila "A002" "Maria" "Gonzalez"].

(** A later CSV: a new student, Juan once more, and another new student. *)
Definition segunda_lista : DataFrame string :=
  mk_frame ["student_code"; "first_name"; "last_name"]
    [fila "A003" "Ana" "Ruiz"; fila "A001" "Juan" "Perez";
     fila "A004" "Luis" "Diaz"].

Definition text_cell (x : string) : result (option string) := Ok (Some x).

(** A new store after importing the template: Juan has id 1, Maria id 2. *)
Definition escuela : db := (importar_csv id text_cell (Some plantilla) init_db).1.

Definition juan : Student.row := Student.mk 1 "A001" (Some "Juan") (Some "Perez") None.
Definition maria : Student.row := Student.mk 2 "A002" (Some "Maria") (Some "Gonzalez") None.

(** Class 7 with two notes for Juan, (80, 1) and (90, 3), and one for Maria,
    (70, 0). *)
Definition escuela_notas : db :=
  (guardar_nota 7 2 "2024-03-12T09:30:00" 70 0 "Oral"
     (guardar_nota 7 1 "2024-03-11T09:30:00" 90 3 "Parcial 2"
        (guardar_nota 7 1 "2024-03-04T09:30:00" 80 1 "Parcial 1" escuela).1).1).1.


(** What the two number inputs of "Guardar nota" allow: a grade in [0, 100]
    and a weight in [0, 10]. *)
Definition in_range (grade weight : Q) : Prop :=
  (0 <= grade ∧ grade <= 100 ∧ 0 <= weight ∧ weight <= 10)%Q.

(** Every grade row is one the form can have written. *)
Definition grades_in_range (d : db) : Prop :=
  Forall (fun g => in_range (Grade.grade g) (Grade.weight g)) (rows (grades d)).


(** attendance.present only ever holds the 0 or 1 the handler writes. *)
Definition present_is_bit (d : db) : Prop :=
  Forall (fun a => Attendance.present a = 0 ∨ Attendance.present a = 1)
         (rows (attendance d)).

Definition two_digits (n : nat) : string :=
  if decide (n < 10)%nat then "0" +:+ pretty n else pretty n.

(** The ISO date of the n-th school day, counting 28 days in every month. *)
Definition fecha (n : nat) : string :=
  pretty (2020 + n / 336)%nat +:+ "-" +:+ two_digits (n / 28 mod 12 + 1)
  +:+ "-" +:+ two_digits (n mod 28 + 1).

(** Attendance of class [c] saved on the first [n] school days: [checked]
    tells who was present on which day. *)
Definition asistencias (c : Z) (checked : nat -> Z -> bool) (n : nat) (d : db) : db :=
  foldl (fun d day => (guardar_asistencia c (fecha day) (checked day) d).1)
        d (List.seq 0 n).

(** Four days of class 7: everybody present on the first three, nobody on
    the fourth. *)
Definition escuela_asistencia : db :=
  asistencias 7 (fun day _ => bool_decide (day < 3)%nat) 4 escuela.



(** Eighty days of class 7: everybody present on the first 23, nobody
    afterwards. *)
Definition escuela_ochenta : db :=
  asistencias 7 (fun day _ => bool_decide (day < 23)%nat) 80 escuela.

(** The key of the summary's GROUP BY, of a student and of a summary row. *)
Definition student_key (s : Student.row) : Z * option string * option string :=
  (Student.id s, Student.first_name s, Student.last_name s).

Definition att_row_key (r : Att.row) : Z * option string * option string :=
  (Att.student_id r, Att.first_name r, Att.last_name r).


(** attendance.id is a PRIMARY KEY. *)
Definition attendance_pk (d : db) : Prop :=
  NoDup (Attendance.id <$> rows (attendance d)).

(** At most one attendance row per (class, student, date). *)
Definition attendance_unique (d : db) : Prop :=
  forall (c sid : Z) (date : string),
    (length (filter (same_key c sid date) (rows (attendance d))) <= 1)%nat.


(** attendance.note is NULL: no statement of the script writes it. *)
Definition notes_null (d : db) : Prop :=
  Forall (fun a => Attendance.note a = None) (rows (attendance d)).


(** Every stored teacher name is what the form stores: stripped, not empty. *)
Definition teachers_stripped (d : db) : Prop :=
  Forall (fun t => strip (Teacher.name t) = Teacher.name t ∧ Teacher.name t ≠ "")
         (rows (teachers d)).


(** U+00A0, the no-break space: white space for [str.strip()], not ASCII. *)
Definition nbsp : string := string_of_list_ascii (utf8 160).

(** An empty, writable data/exams; the same directory made read-only. *)
Definition disco : disk := mk_disk ∅ true.
Definition disco_protegido : disk := mk_disk ∅ false.

Definition ninguna : option Z * string := (None, "-- Ninguna --").

(** The first bytes of a PDF. *)
Definition parcial_pdf : list Byte.byte := [Byte.x25; Byte.x50; Byte.x44; Byte.x46].

(** The school after one upload into the writable directory: the store, and
    the directory holding the file. *)
Definition escuela_examen : db :=
  (subir_examen (Some ("parcial.pdf", parcial_pdf)) "Prof. Perez" ninguna ninguna
     "20240304093000" "2024-03-04T09:30:00.000000" escuela disco).1.1.

Definition disco_examen : disk :=
  (subir_examen (Some ("parcial.pdf", parcial_pdf)) "Prof. Perez" ninguna ninguna
     "20240304093000" "2024-03-04T09:30:00.000000" escuela disco).1.2.


(** ** Pagina "Clases & Materias": materias y clases *)

Definition with_subjects (d : db) (t : table Subject.row) : db :=
  mk_db (students d) (teachers d) t (classes d) (attendance d) (grades d) (exams d).

(** INSERT INTO subjects(name, description); the column name is UNIQUE. *)
Definition insert_subject (d : db) (name description : string) : result db :=
  if decide (name ∈ Subject.name <$> rows (subjects d))
  then Raise IntegrityError
  else Ok (with_subjects d
             (insert_row Subject.id (subjects d)
                (fun i => Subject.mk i name description))).

(** The handler of "Crear materia": only sqlite3.IntegrityError is caught. *)
Definition crear_materia (name desc : string) (d : db) : db * outcome :=
  if decide (strip name = "") then (d, shown (warning "Ingrese un nombre válido"))
  else
    match insert_subject d (strip name) (strip desc) with
    | Ok d' => (d', shown (success "Materia creada"))
    | Raise IntegrityError => (d, shown (error "Ya existe una materia con ese nombre"))
    | Raise e => (d, uncaught e)
    end.

Definition with_classes (d : db) (t : table Class.row) : db :=
  mk_db (students d) (teachers d) (subjects d) t (attendance d) (grades d) (exams d).

(** The handler of "Crear clase".  [subject] and [teacher] are what the two
    selectboxes return: nothing, or the (id, name) row chosen.  Nothing is
    validated and no exception is caught. *)
Definition crear_clase (subject teacher : option (Z * string)) (cname sched : string)
    (d : db) : db * notice :=
  (with_classes d
     (insert_row Class.id (classes d)
        (fun i => Class.mk i (fst <$> subject) (fst <$> teacher) cname sched)),
   success "Clase creada").

Module ClassView.
Record row := mk {
  id : Z;
  class_name : string;
  subject : option string;
  teacher : option string;
  schedule : string }.
End ClassView.

(** "Clases existentes": classes c LEFT JOIN subjects s ON c.subject_id=s.id
    LEFT JOIN teachers t ON c.teacher_id=t.id *)
Definition clases_df (d : db) : list ClassView.row :=
  c ← rows (classes d);
  s ← left_join (fun s => Class.subject_id c = Some (Subject.id s)) (rows (subjects d));
  t ← left_join (fun t => Class.teacher_id c = Some (Teacher.id t)) (rows (teachers d));
  [ClassView.mk (Class.id c) (Class.class_name c) (Subject.name <$> s)
     (Teacher.name <$> t) (Class.schedule c)].

(** ** Pagina "Notas": notas registradas *)

Module GradeView.
Record row := mk {
  id : Z;
  estudiante : option string;
  grade : Q;
  weight : Q;
  date : string;
  description : string }.
End GradeView.

(** SQL's [||]: NULL as soon as one side is NULL. *)
Definition sql_concat (x y : option string) : option string :=
  a ← x; b ← y; Some (a +:+ b).

Definition grade_view (j : Grade.row * Student.row) : GradeView.row :=
  GradeView.mk (Grade.id j.1)
    (sql_concat (sql_concat (Student.last_name j.2) (Some ", ")) (Student.first_name j.2))
    (Grade.grade j.1) (Grade.weight j.1) (Grade.date j.1) (Grade.description j.1).

Definition latest_first (x y : GradeView.row) : Prop :=
  String.leb (GradeView.date y) (GradeView.date x) = true.

#[global] Instance latest_first_dec x y : Decision (latest_first x y).
Proof. unfold latest_first. apply _. Defined.

(** The query [q] of line 297, ORDER BY g.date DESC. *)
Definition grades_df (d : db) (class_id : Z) : list GradeView.row :=
  merge_sort latest_first (grade_view <$> grades_join d class_id).

(** ** Pagina "Cargar examenes": descargar *)

(** Reading a file of data/exams: its bytes, or the exception [open] raises. *)
Class BlobReader (fs : Type) := {
  read_file : fs -> string -> result (list Byte.byte) }.

#[global] Instance disk_reader : BlobReader disk := {
  read_file f name :=
    match files f !! name with
    | Some data => Ok data
    | None => Raise OSError
    end }.

(** The action "Descargar" of "Ejecutar accion": the markdown link it shows,
    or the exception that leaves the handler (nothing is caught here).
    [b64encode] is base64.b64encode(...).decode(). *)
Definition descargar_examen {fs} `{BlobReader fs} (b64encode : list Byte.byte -> string)
    (sel : Z) (d : db) (f : fs) : result string :=
  match head (filter (fun r => ExamView.id r = sel) (exams_df d)) with
  | None => Raise IndexError
  | Some row =>
      match read_file f (ExamView.file_name row) with
      | Raise e => Raise e
      | Ok data =>
          Ok ("[Descargar " +:+ ExamView.original_name row +:+ "]("
              +:+ "data:application/octet-stream;base64," +:+ b64encode data +:+ ")")
      end
  end.

(** ** Pagina "Ajustes / Exportar": borrar la base *)

(** "Borrar BD": the connection is closed, the database file is unlinked (a
    failure is ignored) and the script runs again, which opens a database
    anew and runs [init_db].  [unlinked] tells whether the file went away.
    Neither branch touches data/exams. *)
Definition borrar_bd (unlinked : bool) (d : db) : db :=
  if unlinked then init_db else d.

(** ** Tables with AUTOINCREMENT *)

(** The rowids of a table are distinct, positive and not above the table's
    entry in sqlite_sequence, which is never negative. *)
Definition table_ok {R} (rowid : R -> Z) (t : table R) : Prop :=
  NoDup (rowid <$> rows t)
  ∧ Forall (fun i => 1 <= i <= sqlite_seq t) (rowid <$> rows t)
  ∧ 0 <= sqlite_seq t.

Record tables_ok (d : db) : Prop := mk_tables_ok {
  ok_students : table_ok Student.id (students d);
  ok_teachers : table_ok Teacher.id (teachers d);
  ok_subjects : table_ok Subject.id (subjects d);
  ok_classes : table_ok Class.id (classes d);
  ok_attendance : table_ok Attendance.id (attendance d);
  ok_grades : table_ok Grade.id (grades d);
  ok_exams : table_ok Exam.id (exams d) }.

(** subjects.name is UNIQUE. *)
Definition subjects_unique (d : db) : Prop :=
  NoDup (Subject.name <$> rows (subjects d)).

(** ** The stores the handlers can reach *)

(** What the schema and the forms keep true of the four tables read by the
    aggregations and the uniqueness checks. *)
Record invariant (d : db) : Prop := mk_invariant {
  inv_students_pk : students_pk d;
  inv_students_unique : students_unique d;
  inv_teachers_unique : teachers_unique d;
  inv_teachers_stripped : teachers_stripped d;
  inv_attendance_pk : attendance_pk d;
  inv_attendance_unique : attendance_unique d;
  inv_present_is_bit : present_is_bit d;
  inv_grades_in_range : grades_in_range d }.

(** The stores reached from a new database by the handlers above, with any
    widget values the forms allow, any CSV and any behaviour of the exams
    directory. *)
Inductive reachable : db -> Prop :=
  | reach_init : reachable init_db
  | reach_guardar_nota c sid now grade weight desc d :
      in_range grade weight -> reachable d ->
      reachable (guardar_nota c sid now grade weight desc d).1
  | reach_guardar_asistencia c date checked d :
      reachable d -> reachable (guardar_asistencia c date checked d).1
  | reach_importar_csv {cell} (str : cell -> string)
      (bind : cell -> result (option string)) cfile d :
      reachable d -> reachable (importar_csv str bind cfile d).1
  | reach_agregar_profesor name email d :
      reachable d -> reachable (agregar_profesor name email d).1
  | reach_subir_examen {fs} `{BlobStore fs} file uploaded_by subject_choice
      class_choice timestamp now d (f : fs) :
      reachable d ->
      reachable (subir_examen file uploaded_by subject_choice class_choice
                   timestamp now d f).1.1
  | reach_eliminar_examen {fs} `{BlobStore fs} sel d (f : fs) :
      reachable d -> reachable (eliminar_examen sel d f).1.1
  | reach_crear_materia name desc d :
      reachable d -> reachable (crear_materia name desc d).1
  | reach_crear_clase subject teacher cname sched d :
      reachable d -> reachable (crear_clase subject teacher cname sched d).1
  | reach_borrar_bd unlinked d :
      reachable d -> reachable (borrar_bd unlinked d).

(** One run of a handler that leaves the database file in place: every
    handler but "Borrar BD". *)
Inductive step : db -> db -> Prop :=
  | step_guardar_nota c sid now grade weight desc d :
      in_range grade weight -> step d (guardar_nota c sid now grade weight desc d).1
  | step_guardar_asistencia c date checked d :
      step d (guardar_asistencia c date checked d).1
  | step_importar_csv {cell} (str : cell -> string)
      (bind : cell -> result (option string)) cfile d :
      step d (importar_csv str bind cfile d).1
  | step_agregar_profesor name email d :
      step d (agregar_profesor name email d).1
  | step_subir_examen {fs} `{BlobStore fs} file uploaded_by subject_choice
      class_choice timestamp now d (f : fs) :
      step d (subir_examen file uploaded_by subject_choice class_choice
                timestamp now d f).1.1
  | step_eliminar_examen {fs} `{BlobStore fs} sel d (f : fs) :
      step d (eliminar_examen sel d f).1.1
  | step_crear_materia name desc d :
      step d (crear_materia name desc d).1
  | step_crear_clase subject teacher cname sched d :
      step d (crear_clase subject teacher cname sched d).1.

(** * Properties *)

(** ** Importar CSV *)

Section ImportarFacts.
Context {cell : Type} (str : cell -> string) (bind : cell -> result (option string)).

(** C5.  A frame that lacks one of student_code, first_name, last_name is
    rejected as a whole: the handler shows the error about the required
    columns and returns the store it was given, so nothing is written. *)
Theorem importar_csv_missing_columns (df : DataFrame cell) (d : db) (c : string) :
  c ∈ required -> c ∉ columns df ->
  importar_csv str bind (Some df) d
  = (d, error "CSV no tiene las columnas requeridas").
Proof.
  intros Hreq Hmiss. unfold importar_csv.
  case_decide as Hsub; [|reflexivity].
  exfalso. apply Hmiss. apply Hsub in Hreq.
  by apply elem_of_list_to_set in Hreq.
Qed.
End ImportarFacts.

Lemma importar_csv_missing_columns_witness :
  importar_csv (fun x : string => x) (fun x => Ok (Some x))
    (Some (mk_frame ["student_code"; "first_name"]
             [fun _ => "A001"; fun _ => "A002"])) init_db
  = (init_db, error "CSV no tiene las columnas requeridas").
Proof.
  apply (importar_csv_missing_columns _ _ _ _ "last_name").
  - compute_done.
  - compute_done.
Defined.

(** ** Lists, GROUP BY and the join with students *)

Section ListFacts.
Context {A : Type} (P : A -> Prop) `{!forall x, Decision (P x)}.

Lemma filter_none (l : list A) : (forall x, x ∈ l -> ¬ P x) -> filter P l = [].
Proof.
  induction l as [|a l IH]; intros Hno; [done|].
  rewrite filter_cons_False by (apply Hno; left).
  apply IH. intros x Hx. apply Hno. by right.
Qed.

Lemma filter_nonempty (l : list A) (x : A) : x ∈ l -> P x -> filter P l ≠ [].
Proof.
  intros Hx HP Hnil.
  by apply (filter_nil_not_elem_of P l x).
Qed.

Lemma filter_ext_in (Q : A -> Prop) `{!forall x, Decision (Q x)} (l : list A) :
  (forall x, x ∈ l -> P x <-> Q x) -> filter P l = filter Q l.
Proof.
  induction l as [|a l IH]; intros Heq; [done|].
  rewrite !filter_cons.
  rewrite IH by (intros x Hx; apply Heq; by right).
  destruct (decide (P a)) as [Ha|Ha], (decide (Q a)) as [Hb|Hb]; try done.
  - destruct Hb. apply Heq; [left|done].
  - destruct Ha. apply Heq; [left|done].
Qed.

Lemma filter_fmap_same (f : A -> A) (l : list A) :
  (forall x, P (f x) <-> P x) -> filter P (f <$> l) = f <$> filter P l.
Proof.
  intros Hf. induction l as [|a l IH]; [done|].
  rewrite fmap_cons, !filter_cons, IH.
  destruct (decide (P (f a))) as [Ha|Ha], (decide (P a)) as [Hb|Hb]; try done.
  - destruct Hb. by apply Hf.
  - destruct Ha. by apply Hf.
Qed.

End ListFacts.

(** Appending a row whose key is new keeps the keys distinct. *)
Lemma NoDup_fmap_snoc {A K} (key : A -> K) (l : list A) (x : A) :
  NoDup (key <$> l) -> key x ∉ key <$> l -> NoDup (key <$> l ++ [x]).
Proof.
  intros Hnd Hnew. rewrite fmap_app. apply NoDup_app. split; [done|].
  split; [|apply NoDup_singleton].
  by intros y Hy ->%list_elem_of_singleton.
Qed.

Section GroupBy.
Context {A K : Type} `{EqDecision K} (key : A -> K).

Lemma elem_of_group_by (l : list A) (k : K) (grp : list A) :
  (k, grp) ∈ group_by key l <-> k ∈ key <$> l ∧ grp = filter (fun x => key x = k) l.
Proof.
  unfold group_by. rewrite list_elem_of_fmap. split.
  - intros (k' & Heq & Hin). simplify_eq. split; [|done].
    by rewrite elem_of_remove_dups in Hin.
  - intros [Hin ->]. exists k. split; [done|]. by rewrite elem_of_remove_dups.
Qed.

Lemma group_by_keys (l : list A) : (group_by key l).*1 = remove_dups (key <$> l).
Proof.
  unfold group_by. rewrite <- list_fmap_compose.
  induction (remove_dups (key <$> l)) as [|k ks IH]; [done|].
  rewrite fmap_cons. simpl. by f_equal.
Qed.

Lemma NoDup_group_by (l : list A) : NoDup (group_by key l).*1.
Proof. rewrite group_by_keys. apply NoDup_remove_dups. Qed.

End GroupBy.

Section Join.
Context {A : Type} (student_id : A -> Z).

Lemma filter_primary_key (ss : list Student.row) (s : Student.row) :
  NoDup (Student.id <$> ss) -> s ∈ ss ->
  filter (fun s' => Student.id s = Student.id s') ss = [s].
Proof.
  induction ss as [|a ss IH]; intros Hnd Hs; [by apply elem_of_nil in Hs|].
  rewrite fmap_cons in Hnd. apply NoDup_cons in Hnd as [Hnotin Hnd].
  apply elem_of_cons in Hs as [->|Hs].
  - rewrite filter_cons_True by done. f_equal.
    apply filter_none. intros x Hx Heq. apply Hnotin.
    rewrite Heq. by apply list_elem_of_fmap_2.
  - rewrite filter_cons_False; [by apply IH|].
    intros Heq. apply Hnotin. rewrite <- Heq. by apply list_elem_of_fmap_2.
Qed.

Lemma elem_of_join (l : list A) (ss : list Student.row) (j : A * Student.row) :
  j ∈ join_students student_id l ss
  <-> j.1 ∈ l ∧ j.2 ∈ ss ∧ student_id j.1 = Student.id j.2.
Proof.
  unfold join_students. rewrite list_elem_of_bind. split.
  - intros (a & Hj & Ha). apply list_elem_of_bind in Hj as (s & Hj & Hs).
    apply list_elem_of_singleton in Hj as ->. simpl.
    apply list_elem_of_filter in Hs as [? ?]. done.
  - intros (Ha & Hs & Heq). exists j.1. split; [|done].
    apply list_elem_of_bind. exists j.2. split.
    + destruct j. apply list_elem_of_singleton. done.
    + apply list_elem_of_filter. done.
Qed.

(** With students.id a primary key, the joined rows of one student are that
    student's rows of the left table, each paired with the student. *)
Lemma join_of_student (l : list A) (ss : list Student.row) (s : Student.row) :
  NoDup (Student.id <$> ss) -> s ∈ ss ->
  filter (fun j => Student.id j.2 = Student.id s) (join_students student_id l ss)
  = (fun a => (a, s)) <$> filter (fun a => student_id a = Student.id s) l.
Proof.
  intros Hnd Hs. unfold join_students.
  induction l as [|a l IH]; [done|].
  rewrite bind_cons, filter_app, IH, filter_cons. clear IH.
  destruct (decide (student_id a = Student.id s)) as [Heq|Hne].
  - rewrite fmap_cons. f_equal.
    rewrite (filter_ext_in _ (fun s' => Student.id s = Student.id s'))
      by (intros; rewrite Heq; done).
    rewrite filter_primary_key by done. simpl.
    rewrite filter_cons_True by done. done.
  - rewrite <- (app_nil_l (_ <$> _)). f_equal.
    apply filter_none. intros j Hj Hid.
    apply list_elem_of_bind in Hj as (s' & Hj & Hs').
    apply list_elem_of_singleton in Hj as ->. simpl in Hid.
    apply list_elem_of_filter in Hs' as [? ?]. congruence.
Qed.
End Join.

(** ** Rounding and division *)

Lemma pow10_pos (d : nat) : (0 < pow10 d)%Q.
Proof.
  unfold pow10. change 0%Q with (inject_Z 0). rewrite <- Zlt_Qlt.
  apply Z.pow_pos_nonneg; lia.
Qed.

Lemma rint_comp (p q : Q) : (p == q)%Q -> rint p = rint q.
Proof.
  intros Hpq. unfold rint.
  rewrite (Qfloor_comp _ _ Hpq).
  assert ((p - inject_Z (Qfloor q) ?= 1 # 2) = (q - inject_Z (Qfloor q) ?= 1 # 2))%Q
    as -> by (apply Qcompare_comp; [by rewrite Hpq|reflexivity]).
  done.
Qed.

(** [rint] is within one half of its argument. *)
Lemma rint_close (q : Q) : (Qabs (inject_Z (rint q) - q) <= 1 # 2)%Q.
Proof.
  apply Qabs_Qle_condition. unfold rint.
  pose proof (Qfloor_le q) as Hlo. pose proof (Qlt_floor q) as Hhi.
  rewrite inject_Z_plus in Hhi. change (inject_Z 1) with 1%Q in Hhi.
  destruct (q - inject_Z (Qfloor q) ?= 1 # 2)%Q eqn:Hc.
  - apply Qeq_alt in Hc.
    destruct (Z.even (Qfloor q)); [|rewrite inject_Z_plus; change (inject_Z 1) with 1%Q];
      split; lra.
  - apply Qlt_alt in Hc. split; lra.
  - apply Qgt_alt in Hc. rewrite inject_Z_plus. change (inject_Z 1) with 1%Q.
    split; lra.
Qed.

Lemma round_q_comp (d : nat) (p q : Q) : (p == q)%Q -> round_q d p = round_q d q.
Proof.
  intros Hpq. unfold round_q. apply Qred_complete.
  rewrite (rint_comp (p * pow10 d) (q * pow10 d)) by (by rewrite Hpq).
  reflexivity.
Qed.

(** The rounded value is a whole number of units of 10^-d ... *)
Lemma round_q_decimals (d : nat) (q : Q) :
  exists n : Z, (round_q d q == inject_Z n / pow10 d)%Q.
Proof. exists (rint (q * pow10 d)). unfold round_q. apply Qred_correct. Qed.

(** ... and lies within half a unit of the value it rounds. *)
Lemma round_q_close (d : nat) (q : Q) :
  (Qabs (round_q d q - q) <= (1 # 2) / pow10 d)%Q.
Proof.
  pose proof (pow10_pos d) as Hpos.
  pose proof (rint_close (q * pow10 d)) as Hr.
  unfold round_q. rewrite Qred_correct.
  assert (inject_Z (rint (q * pow10 d)) / pow10 d - q
          == (inject_Z (rint (q * pow10 d)) - q * pow10 d) / pow10 d)%Q as ->
    by (field; lra).
  unfold Qdiv. rewrite Qabs_Qmult.
  rewrite (Qabs_pos (/ pow10 d)) by (apply Qlt_le_weak, Qinv_lt_0_compat, Hpos).
  apply Qmult_le_compat_r; [done|].
  apply Qlt_le_weak, Qinv_lt_0_compat, Hpos.
Qed.


Lemma fdiv_zero_zero (a b : Q) : (a == 0)%Q -> (b == 0)%Q -> fdiv a b = NaN.
Proof.
  intros Ha Hb. unfold fdiv.
  rewrite (Qeq_eq_bool _ _ Hb).
  by apply Qeq_alt in Ha as ->.
Qed.

Lemma round_fdiv_comp (d : nat) (a a' b b' : Q) :
  (a == a')%Q -> (b == b')%Q -> round d (fdiv a b) = round d (fdiv a' b').
Proof.
  intros Ha Hb. unfold fdiv.
  assert (Qeq_bool b 0 = Qeq_bool b' 0) as ->.
  { destruct (Qeq_bool b' 0) eqn:Heq.
    - apply Qeq_eq_bool. apply Qeq_bool_eq in Heq. by rewrite Hb.
    - destruct (Qeq_bool b 0) eqn:Heq'; [|done].
      apply Qeq_bool_eq in Heq'. rewrite Hb in Heq'.
      apply Qeq_eq_bool in Heq'. congruence. }
  assert ((a ?= 0) = (a' ?= 0))%Q as -> by (by apply Qcompare_comp).
  destruct (Qeq_bool b' 0); [done|].
  simpl. f_equal. apply round_q_comp. by rewrite Ha, Hb.
Qed.

Lemma sum_Q_nonneg (l : list Q) : Forall (fun q => 0 <= q)%Q l -> (0 <= sum_Q l)%Q.
Proof.
  induction 1 as [|q l Hq _ IH]; simpl; [apply Qle_refl|].
  change 0%Q with (0 + 0)%Q. by apply Qplus_le_compat.
Qed.

(** Non-negative numbers that sum to zero are all zero. *)
Lemma sum_Q_zero (l : list Q) :
  Forall (fun q => 0 <= q)%Q l -> (sum_Q l == 0)%Q -> Forall (fun q => q == 0)%Q l.
Proof.
  induction 1 as [|q l Hq Hl IH]; simpl; intros Hsum; constructor.
  - pose proof (sum_Q_nonneg l Hl). lra.
  - apply IH. pose proof (sum_Q_nonneg l Hl). lra.
Qed.

(** ** Promedio ponderado *)

Lemma filter_unique_key {A K} `{!EqDecision K} (key : A -> K) (l : list A) (x : A) :
  NoDup (key <$> l) -> x ∈ l -> filter (fun y => key y = key x) l = [x].
Proof.
  induction l as [|a l IH]; intros Hnd Hx; [by apply elem_of_nil in Hx|].
  rewrite fmap_cons in Hnd. apply NoDup_cons in Hnd as [Hnotin Hnd].
  apply elem_of_cons in Hx as [->|Hx].
  - rewrite filter_cons_True by done. f_equal.
    apply filter_none. intros y Hy Heq. apply Hnotin.
    rewrite <- Heq. by apply list_elem_of_fmap_2.
  - rewrite filter_cons_False; [by apply IH|].
    intros Heq. apply Hnotin. rewrite Heq. by apply list_elem_of_fmap_2.
Qed.

Lemma avg_df_ids (d : db) (c : Z) :
  Avg.id <$> avg_df d c = (group_by (fun j => Student.id j.2) (grades_join d c)).*1.
Proof. unfold avg_df. by rewrite <- list_fmap_compose. Qed.

(** The page shows the three columns of [avg_df], or the notice when the
    class has no grade row of a listed student, in which case [avg_df] is
    empty as well. *)
Lemma notas_promedios_frame (d : db) (c : Z) :
  (grades_join d c = [] ∧ avg_df d c = []
   ∧ notas_promedios d c = inl (info "No hay notas registradas para esta clase."))
  ∨ (grades_join d c ≠ []
     ∧ notas_promedios d c
       = inr ((fun r => (Avg.first_name r, Avg.last_name r, Avg.promedio r))
                <$> avg_df d c)).
Proof.
  unfold notas_promedios, avg_df.
  destruct (grades_join d c); [by left|by right].
Qed.

(** The group of a student in [avg_q] is the student's entries of the class. *)
Lemma grades_group (d : db) (c : Z) (s : Student.row) :
  students_pk d -> s ∈ rows (students d) ->
  filter (fun j => Student.id j.2 = Student.id s) (grades_join d c)
  = (fun g => (g, s)) <$> grade_entries d c (Student.id s).
Proof. intros Hpk Hs. by apply join_of_student. Qed.

Lemma grades_group_key (d : db) (c : Z) (s : Student.row) :
  s ∈ rows (students d) ->
  Student.id s ∈ (fun j : Grade.row * Student.row => Student.id j.2) <$> grades_join d c
  <-> grade_entries d c (Student.id s) ≠ [].
Proof.
  intros Hs. rewrite list_elem_of_fmap. split.
  - intros (j & Hid & Hj). apply elem_of_join in Hj as (Hg & _ & Heq).
    apply (filter_nonempty _ _ j.1); [done|]. congruence.
  - intros Hne. destruct (grade_entries d c (Student.id s)) as [|g gs] eqn:Hes; [done|].
    assert (g ∈ grade_entries d c (Student.id s)) as Hg by (rewrite Hes; left).
    apply list_elem_of_filter in Hg as [Hsid Hg].
    exists (g, s). split; [done|]. by apply elem_of_join.
Qed.

(** The row of a student with entries in the class: it is in the frame, it is
    the only one with the student's id, and its columns are computed from the
    student's entries. *)
Lemma avg_df_row (d : db) (c : Z) (s : Student.row) :
  students_pk d -> s ∈ rows (students d) ->
  let es := grade_entries d c (Student.id s) in
  let suma := sum_Q ((fun g => Grade.grade g * Grade.weight g)%Q <$> es) in
  let pesos := sum_Q (Grade.weight <$> es) in
  es ≠ [] ->
  exists r, r ∈ avg_df d c ∧ Avg.id r = Student.id s
    ∧ filter (fun r => Avg.id r = Student.id s) (avg_df d c) = [r]
    ∧ Avg.first_name r = Student.first_name s
    ∧ Avg.last_name r = Student.last_name s
    ∧ Avg.promedio r = round 2 (fdiv suma pesos).
Proof.
  intros Hpk Hs es suma pesos Hne.
  pose proof (proj2 (grades_group_key d c s Hs) Hne) as Hkey.
  set (grp := filter (fun j : Grade.row * Student.row => Student.id j.2 = Student.id s)
                (grades_join d c)).
  assert (avg_row (Student.id s, grp) ∈ avg_df d c) as Hr.
  { apply list_elem_of_fmap_2. by apply elem_of_group_by. }
  exists (avg_row (Student.id s, grp)).
  split; [exact Hr|]. split; [done|]. split.
  { apply (filter_unique_key Avg.id (avg_df d c) (avg_row (Student.id s, grp)));
      [|done].
    rewrite avg_df_ids. apply NoDup_group_by. }
  unfold avg_row. simpl. subst grp.
  rewrite (grades_group d c s Hpk Hs). fold es.
  rewrite <- !list_fmap_compose.
  by destruct es.
Qed.

Lemma sum_Q_products_zero (es : list Grade.row) :
  Forall (fun q => q == 0)%Q (Grade.weight <$> es) ->
  (sum_Q ((fun g => Grade.grade g * Grade.weight g)%Q <$> es) == 0)%Q.
Proof.
  induction es as [|g es IH]; simpl; intros Hz; [reflexivity|].
  apply Forall_cons in Hz as [Hg Hz].
  rewrite (IH Hz), Hg. ring.
Qed.

Lemma guardar_nota_in_range (c sid : Z) (now desc : string) (grade weight : Q) (d : db) :
  in_range grade weight -> grades_in_range d ->
  grades_in_range (guardar_nota c sid now grade weight desc d).1.
Proof.
  intros Hin Hd. unfold grades_in_range. simpl.
  apply Forall_app. split; [done|]. by constructor.
Qed.

Lemma grade_entries_in_range (d : db) (c sid : Z) :
  grades_in_range d ->
  Forall (fun q => 0 <= q)%Q (Grade.weight <$> grade_entries d c sid).
Proof.
  intros Hd. apply Forall_fmap, Forall_forall. intros g Hg.
  apply list_elem_of_filter in Hg as [_ Hg].
  apply list_elem_of_filter in Hg as [_ Hg].
  unfold grades_in_range in Hd. rewrite Forall_forall in Hd.
  by destruct (Hd g Hg) as (_ & _ & Hw & _).
Qed.

(** C2.  With students.id a primary key and every grade row within the
    bounds of the form (so no weight is negative), a student who has entries
    in the class whose weights sum to zero gets one row whose promedio is nan,
    pandas' missing value: no exception is raised and no number is returned.
    A student whose only entry is (70, 0) gets nan, not 70.0. *)
Theorem avg_df_zero_weights (d : db) (c : Z) (s : Student.row) :
  students_pk d -> grades_in_range d -> s ∈ rows (students d) ->
  let es := grade_entries d c (Student.id s) in
  (es ≠ [] -> (sum_Q (Grade.weight <$> es) == 0)%Q ->
   exists r, filter (fun r => Avg.id r = Student.id s) (avg_df d c) = [r]
     ∧ Avg.promedio r = NaN ∧ isna (Avg.promedio r) = true)
  ∧ (entries_are es [(70, 0)]%Q ->
     exists r, filter (fun r => Avg.id r = Student.id s) (avg_df d c) = [r]
       ∧ Avg.promedio r = NaN ∧ Avg.promedio r ≠ Fin 70).
Proof.
  intros Hpk Hrange Hs es.
  pose proof (avg_df_row d c s Hpk Hs) as Hrow. simpl in Hrow. fold es in Hrow.
  assert (es ≠ [] -> (sum_Q (Grade.weight <$> es) == 0)%Q ->
          exists r, filter (fun r => Avg.id r = Student.id s) (avg_df d c) = [r]
            ∧ Avg.promedio r = NaN) as Hnan.
  { intros Hne Hsum.
    destruct (Hrow Hne) as (r & _ & _ & Hfil & _ & _ & Hprom).
    exists r. split; [done|]. rewrite Hprom.
    rewrite fdiv_zero_zero; [done| |done].
    apply sum_Q_products_zero, sum_Q_zero; [|done].
    by apply grade_entries_in_range. }
  split.
  - intros Hne Hsum. destruct (Hnan Hne Hsum) as (r & Hfil & Hprom).
    exists r. by rewrite Hprom.
  - intros Hes.
    apply Forall2_cons_inv_r in Hes as (g & es' & [Hg Hw] & Hes & Heq).
    apply Forall2_nil_inv_r in Hes as ->. simpl in Hw.
    destruct Hnan as (r & Hfil & Hprom).
    + by rewrite Heq.
    + rewrite Heq. simpl. rewrite Hw. reflexivity.
    + exists r. by rewrite Hprom.
Qed.

Lemma escuela_notas_in_range : grades_in_range escuela_notas.
Proof.
  unfold escuela_notas.
  do 3 (apply guardar_nota_in_range; [by vm_compute|]).
  by vm_compute.
Defined.

Lemma avg_df_zero_weights_witness :
  (exists r, filter (fun r => Avg.id r = 2) (avg_df escuela_notas 7) = [r]
     ∧ Avg.promedio r = NaN ∧ isna (Avg.promedio r) = true)
  ∧ (exists r, filter (fun r => Avg.id r = 2) (avg_df escuela_notas 7) = [r]
       ∧ Avg.promedio r = NaN ∧ Avg.promedio r ≠ Fin 70).
Proof.
  assert (students_pk escuela_notas) as Hpk by (unfold students_pk; compute_done).
  assert (maria ∈ rows (students escuela_notas)) as Hin by (vm_compute; right; left).
  destruct (avg_df_zero_weights escuela_notas 7 maria Hpk escuela_notas_in_range Hin)
    as [Hgen Hex].
  split.
  - apply Hgen; by vm_compute.
  - apply Hex. vm_compute. by repeat constructor.
Defined.

(** ** Asistencia: resumen por estudiante *)










Lemma sum_Z_bits (l : list Z) :
  Forall (fun z => z = 0 ∨ z = 1) l ->
  sum_Z l = Z.of_nat (length (filter (fun z => z = 1) l)).
Proof.
  induction 1 as [|z l Hz _ IH]; [done|].
  simpl. rewrite filter_cons, IH.
  destruct (decide (z = 1)); simpl; lia.
Qed.

Lemma sum_Z_Permutation (l l' : list Z) : l ≡ₚ l' -> sum_Z l = sum_Z l'.
Proof. induction 1; simpl; lia. Qed.

Lemma students_pk_inj (d : db) (s s' : Student.row) :
  students_pk d -> s ∈ rows (students d) -> s' ∈ rows (students d) ->
  Student.id s' = Student.id s -> s' = s.
Proof.
  intros Hpk Hs Hs' Hid.
  pose proof (filter_unique_key Student.id _ s Hpk Hs) as Hfil.
  assert (s' ∈ filter (fun y => Student.id y = Student.id s) (rows (students d))) as Hin
    by (by apply list_elem_of_filter).
  rewrite Hfil in Hin. by apply list_elem_of_singleton in Hin.
Qed.

Lemma att_df_keys (d : db) (c : Z) :
  att_row_key <$> att_df d c = (group_by att_key (att_join d c)).*1.
Proof.
  unfold att_df. rewrite <- list_fmap_compose.
  apply list_fmap_ext. by intros _ [[[k1 k2] k3] grp] _.
Qed.

(** In the join, a row carries the key of a student exactly when it carries
    the student's id. *)
Lemma att_key_student (d : db) (c : Z) (s : Student.row) (j : Attendance.row * Student.row) :
  students_pk d -> s ∈ rows (students d) -> j ∈ att_join d c ->
  att_key j = student_key s <-> Student.id j.2 = Student.id s.
Proof.
  intros Hpk Hs Hj. unfold att_join in Hj. apply elem_of_join in Hj as (_ & Hs' & Heq).
  unfold att_key, student_key. split.
  - intros Hk. injection Hk as Hid _ _. congruence.
  - intros Hid. rewrite (students_pk_inj d s j.2 Hpk Hs Hs' Hid). congruence.
Qed.

(** The group of a student in the summary query is the student's records of
    the class. *)
Lemma att_group (d : db) (c : Z) (s : Student.row) :
  students_pk d -> s ∈ rows (students d) ->
  filter (fun j => att_key j = student_key s) (att_join d c)
  = (fun a => (a, s)) <$> attendance_records d c (Student.id s).
Proof.
  intros Hpk Hs.
  rewrite (filter_ext_in _ (fun j => Student.id j.2 = Student.id s))
    by (intros j Hj; by apply (att_key_student d c)).
  by apply join_of_student.
Qed.

Lemma att_group_key (d : db) (c : Z) (s : Student.row) :
  students_pk d -> s ∈ rows (students d) ->
  student_key s ∈ att_key <$> att_join d c
  <-> attendance_records d c (Student.id s) ≠ [].
Proof.
  intros Hpk Hs. rewrite list_elem_of_fmap. split.
  - intros (j & Hk & Hj).
    pose proof (proj1 (att_key_student d c s j Hpk Hs Hj) (eq_sym Hk)) as Hid.
    apply elem_of_join in Hj as (Ha & _ & Heq).
    apply (filter_nonempty _ _ j.1); [done|]. congruence.
  - intros Hne. destruct (attendance_records d c (Student.id s)) as [|a l] eqn:Hes; [done|].
    assert (a ∈ attendance_records d c (Student.id s)) as Ha by (rewrite Hes; left).
    apply list_elem_of_filter in Ha as [Hsid Ha].
    exists (a, s). split; [|by apply elem_of_join].
    unfold att_key, student_key. simpl. by rewrite Hsid.
Qed.

(** A row of the summary with the id of a student carries the student's key. *)
Lemma att_df_student (d : db) (c : Z) (s : Student.row) (r : Att.row) :
  students_pk d -> s ∈ rows (students d) -> r ∈ att_df d c ->
  Att.student_id r = Student.id s <-> att_row_key r = student_key s.
Proof.
  intros Hpk Hs Hr. split; [|by intros [= ? _ _]].
  intros Hid.
  assert (att_row_key r ∈ att_row_key <$> att_df d c) as Hk
    by (by apply list_elem_of_fmap_2).
  rewrite att_df_keys, group_by_keys, elem_of_remove_dups in Hk.
  apply list_elem_of_fmap in Hk as (j & Hk & Hj).
  rewrite Hk. apply (att_key_student d c s j Hpk Hs Hj).
  pose proof (proj1 (elem_of_join _ _ _ _) Hj) as (_ & _ & Heq).
  rewrite <- Heq, <- Hid. unfold att_row_key, att_key in Hk. congruence.
Qed.

(** The row of a student with records in the class. *)
Lemma att_df_row (d : db) (c : Z) (s : Student.row) :
  students_pk d -> s ∈ rows (students d) ->
  let recs := attendance_records d c (Student.id s) in
  recs ≠ [] ->
  exists r, r ∈ att_df d c ∧ Att.student_id r = Student.id s
    ∧ filter (fun r => Att.student_id r = Student.id s) (att_df d c) = [r]
    ∧ Att.first_name r = Student.first_name s
    ∧ Att.last_name r = Student.last_name s
    ∧ Att.presents r = sum_Z (Attendance.present <$> recs)
    ∧ Att.total r = Z.of_nat (length recs)
    ∧ Att.percent r = round 1 (fmul (fdiv (inject_Z (Att.presents r))
                                          (inject_Z (Att.total r))) 100).
Proof.
  intros Hpk Hs recs Hne.
  pose proof (proj2 (att_group_key d c s Hpk Hs) Hne) as Hkey.
  set (grp := filter (fun j => att_key j = student_key s) (att_join d c)).
  assert (att_row (student_key s, grp) ∈ att_df d c) as Hr.
  { apply list_elem_of_fmap_2. by apply elem_of_group_by. }
  exists (att_row (student_key s, grp)).
  split; [exact Hr|]. split; [done|]. split.
  { rewrite (filter_ext_in _ (fun r => att_row_key r = student_key s))
      by (intros r' Hr'; by apply (att_df_student d c)).
    apply (filter_unique_key att_row_key (att_df d c) (att_row (student_key s, grp)));
      [|done].
    rewrite att_df_keys. apply NoDup_group_by. }
  unfold att_row. simpl. subst grp.
  rewrite (att_group d c s Hpk Hs). fold recs.
  rewrite <- !list_fmap_compose, length_fmap. done.
Qed.

Lemma sum_present_count (recs : list Attendance.row) :
  Forall (fun a => Attendance.present a = 0 ∨ Attendance.present a = 1) recs ->
  sum_Z (Attendance.present <$> recs)
  = Z.of_nat (length (filter (fun a => Attendance.present a = 1) recs)).
Proof.
  induction 1 as [|a l Ha _ IH]; [done|].
  rewrite fmap_cons, filter_cons. simpl. rewrite IH.
  destruct (decide (Attendance.present a = 1)); simpl; lia.
Qed.


Lemma attendance_records_bits (d : db) (c sid : Z) :
  present_is_bit d ->
  Forall (fun a => Attendance.present a = 0 ∨ Attendance.present a = 1)
         (attendance_records d c sid).
Proof.
  intros Hbit. apply Forall_forall. intros a Ha.
  apply list_elem_of_filter in Ha as [_ Ha].
  apply list_elem_of_filter in Ha as [_ Ha].
  unfold present_is_bit in Hbit. rewrite Forall_forall in Hbit. by apply Hbit.
Qed.

Lemma escuela_asistencia_bits : present_is_bit escuela_asistencia.
Proof. unfold present_is_bit. compute_done. Defined.




(** ** Guardar asistencia *)

Lemma NoDup_fmap_eq {A K} (key : A -> K) (l : list A) (x y : A) :
  NoDup (key <$> l) -> x ∈ l -> y ∈ l -> key y = key x -> y = x.
Proof.
  induction l as [|a l IH]; intros Hnd Hx Hy Hk; [by apply elem_of_nil in Hx|].
  rewrite fmap_cons in Hnd. apply NoDup_cons in Hnd as [Hnotin Hnd].
  apply elem_of_cons in Hx as [->|Hx], Hy as [->|Hy]; try done.
  - destruct Hnotin. rewrite <- Hk. by apply list_elem_of_fmap_2.
  - destruct Hnotin. rewrite Hk. by apply list_elem_of_fmap_2.
  - by apply IH.
Qed.

Lemma max_list_ge (l : list Z) (x : Z) : x ∈ l -> x <= max_list l.
Proof.
  induction 1 as [x l|x y l _ IH]; simpl; lia.
Qed.

Lemma next_id_fresh {R} (rowid : R -> Z) (t : table R) :
  next_id rowid t ∉ rowid <$> rows t.
Proof.
  intros Hin. apply max_list_ge in Hin. unfold next_id in Hin. lia.
Qed.

Section DictSet.
Context (chk : Z -> bool).

Lemma dict_set_keys (k : Z) (v : bool) (items : list (Z * bool)) :
  (dict_set k v items).*1 = if decide (k ∈ items.*1) then items.*1 else items.*1 ++ [k].
Proof.
  induction items as [|[k' v'] items IH]; [done|].
  cbn [dict_set]. destruct (decide (k = k')) as [->|Hne]; rewrite !fmap_cons; cbn [fst].
  - rewrite decide_True by left. done.
  - rewrite IH. destruct (decide (k ∈ items.*1)) as [Hin|Hnotin].
    + rewrite decide_True by (by right). done.
    + rewrite decide_False; [done|].
      intros [?|?]%elem_of_cons; done.
Qed.

Lemma dict_set_elem (k : Z) (v : bool) (items : list (Z * bool)) (k' : Z) (v' : bool) :
  (k', v') ∈ dict_set k v items -> (k' = k ∧ v' = v) ∨ (k', v') ∈ items.
Proof.
  induction items as [|[k0 v0] items IH]; simpl.
  - intros [= -> ->]%list_elem_of_singleton. by left.
  - destruct (decide (k = k0)) as [->|Hne].
    + intros [[= -> ->]|Hin]%elem_of_cons; [by left|]. right. by right.
    + intros [[= -> ->]|Hin]%elem_of_cons; [right; left|].
      destruct (IH Hin) as [?|?]; [by left|]. right. by right.
Qed.

(** The dict built by the loop over the listed students, from any start. *)
Lemma build_spec (l : list Student.row) (acc : list (Z * bool)) :
  let build acc l :=
    foldl (fun items r => dict_set (Student.id r) (chk (Student.id r)) items) acc l in
  NoDup acc.*1 -> (forall k v, (k, v) ∈ acc -> v = chk k) ->
  NoDup (build acc l).*1
  ∧ (forall k v, (k, v) ∈ build acc l -> v = chk k)
  ∧ (forall k, k ∈ (build acc l).*1 <-> k ∈ acc.*1 ∨ k ∈ Student.id <$> l).
Proof.
  intros build. subst build. cbv beta.
  revert acc. induction l as [|r l IH]; intros acc Hnd Hval.
  - simpl. split; [done|]. split; [done|]. intros k. split; [by left|].
    intros [?|Hk]; [done|]. by apply elem_of_nil in Hk.
  - cbn [foldl].
    destruct (IH (dict_set (Student.id r) (chk (Student.id r)) acc)) as (H1 & H2 & H3).
    + rewrite dict_set_keys. case_decide; [done|].
      apply NoDup_app. split; [done|]. split; [|apply NoDup_singleton].
      intros x Hx ->%list_elem_of_singleton. done.
    + intros k v [[-> ->]|Hin]%dict_set_elem; [done|]. by apply Hval.
    + split; [done|]. split; [done|]. intros k. rewrite H3, dict_set_keys.
      rewrite fmap_cons, elem_of_cons. case_decide as Hin.
      * split; [tauto|]. intros [?|[->|?]]; tauto.
      * rewrite elem_of_app, list_elem_of_singleton. tauto.
Qed.
End DictSet.

Lemma present_dict_spec (chk : Z -> bool) (d : db) :
  NoDup (present_dict chk d).*1
  ∧ (forall k v, (k, v) ∈ present_dict chk d -> v = chk k)
  ∧ (forall k, k ∈ (present_dict chk d).*1 <-> k ∈ Student.id <$> rows (students d)).
Proof.
  destruct (build_spec chk (students_df d) []) as (H1 & H2 & H3).
  - constructor.
  - intros k v Hin. by apply elem_of_nil in Hin.
  - split; [done|]. split; [done|]. intros k.
    unfold present_dict. rewrite H3.
    unfold students_df. rewrite merge_sort_Permutation. split; [|by right].
    intros [Hk|?]; [|done]. by apply elem_of_nil in Hk.
Qed.

Lemma present_dict_item (chk : Z -> bool) (d : db) (s : Student.row) :
  s ∈ rows (students d) -> (Student.id s, chk (Student.id s)) ∈ present_dict chk d.
Proof.
  intros Hs. destruct (present_dict_spec chk d) as (_ & Hval & Hkeys).
  assert (Student.id s ∈ (present_dict chk d).*1) as Hk
    by (apply Hkeys; by apply list_elem_of_fmap_2).
  apply list_elem_of_fmap in Hk as ([k v] & Hid & Hin). simpl in Hid. subst k.
  by rewrite <- (Hval _ _ Hin).
Qed.

Section SaveOne.
Context (c : Z) (date : string).

Lemma update_filter (d : db) (p i : Z) (c' k' : Z) (dt' : string) :
  filter (same_key c' k' dt') (rows (attendance (update_present d p i)))
  = (fun a => if decide (Attendance.id a = i) then set_present p a else a)
      <$> filter (same_key c' k' dt') (rows (attendance d)).
Proof. simpl. apply filter_fmap_same. intros a. by case_decide. Qed.

Lemma update_ids (d : db) (p i : Z) :
  Attendance.id <$> rows (attendance (update_present d p i))
  = Attendance.id <$> rows (attendance d).
Proof.
  simpl. rewrite <- list_fmap_compose. apply list_fmap_ext.
  intros _ a _. simpl. by case_decide.
Qed.

(** With attendance.id a primary key, the UPDATE leaves alone every list of
    rows that does not hold the row found. *)
Lemma update_elsewhere (d : db) (p : Z) (a0 : Attendance.row) (F : list Attendance.row) :
  attendance_pk d -> a0 ∈ rows (attendance d) -> F ⊆ rows (attendance d) -> a0 ∉ F ->
  (fun a => if decide (Attendance.id a = Attendance.id a0) then set_present p a else a)
    <$> F = F.
Proof.
  intros Hpk Ha0 Hsub Hnotin.
  rewrite <- (list_fmap_id F) at 2. apply list_fmap_ext.
  intros i a Hia. apply list_elem_of_lookup_2 in Hia.
  case_decide as Heq; [|done]. destruct Hnotin.
  by rewrite <- (NoDup_fmap_eq Attendance.id _ a0 a Hpk Ha0 (Hsub _ Hia) Heq).
Qed.

Lemma fetch_some (d : db) (k i : Z) :
  fetch_attendance_id d c k date = Some i ->
  exists a0 rest,
    filter (same_key c k date) (rows (attendance d)) = a0 :: rest ∧ Attendance.id a0 = i.
Proof.
  unfold fetch_attendance_id.
  destruct (filter _ _) as [|a0 rest]; [done|].
  intros [= <-]. by exists a0, rest.
Qed.

Lemma fetch_none (d : db) (k : Z) :
  fetch_attendance_id d c k date = None ->
  filter (same_key c k date) (rows (attendance d)) = [].
Proof. unfold fetch_attendance_id. by destruct (filter _ _). Qed.

(** One turn of the loop does not touch the rows of another triple. *)
Lemma save_one_other (d : db) (it : Z * bool) (c' k' : Z) (dt' : string) :
  attendance_pk d -> ¬ (c' = c ∧ k' = it.1 ∧ dt' = date) ->
  filter (same_key c' k' dt') (rows (attendance (save_one c date d it)))
  = filter (same_key c' k' dt') (rows (attendance d)).
Proof.
  intros Hpk Hne. unfold save_one.
  destruct (fetch_attendance_id d c it.1 date) as [i|] eqn:Hfetch.
  - apply fetch_some in Hfetch as (a0 & rest & Hfil & <-).
    assert (a0 ∈ filter (same_key c it.1 date) (rows (attendance d))) as Ha0
      by (rewrite Hfil; left).
    apply list_elem_of_filter in Ha0 as [(Hc & Hk & Hd) Ha0].
    rewrite update_filter. apply (update_elsewhere d); [done|done| |].
    + apply list_subseteq_filter; apply _.
    + intros [(Hc' & Hk' & Hd') _]%list_elem_of_filter. apply Hne. by subst.
  - simpl. rewrite filter_app, filter_cons_False, filter_nil, app_nil_r; [done|].
    intros (Hc' & Hk' & Hd'). simpl in *. by apply Hne.
Qed.

(** One turn of the loop leaves exactly one row for its own triple: the row
    found, with [present] replaced, or else the row inserted. *)
Lemma save_one_same (d : db) (k : Z) (v : bool) :
  attendance_unique d ->
  exists a, filter (same_key c k date) (rows (attendance (save_one c date d (k, v)))) = [a]
    ∧ match head (filter (same_key c k date) (rows (attendance d))) with
      | Some a0 => a = set_present (bit v) a0
      | None => a = Attendance.mk (next_id Attendance.id (attendance d)) c k date (bit v) None
      end.
Proof.
  intros Huniq. unfold save_one. simpl.
  destruct (fetch_attendance_id d c k date) as [i|] eqn:Hfetch.
  - apply fetch_some in Hfetch as (a0 & rest & Hfil & <-).
    pose proof (Huniq c k date) as Hlen. rewrite Hfil in Hlen.
    destruct rest; [|simpl in Hlen; lia].
    rewrite update_filter, Hfil. simpl. rewrite decide_True by done.
    by exists (set_present (bit v) a0).
  - apply fetch_none in Hfetch. rewrite Hfetch. simpl.
    rewrite filter_app, Hfetch, filter_cons_True, filter_nil by done.
    by eexists.
Qed.

Lemma save_one_pk (d : db) (it : Z * bool) :
  attendance_pk d -> attendance_pk (save_one c date d it).
Proof.
  intros Hpk. unfold save_one, attendance_pk.
  destruct (fetch_attendance_id d c it.1 date) as [i|].
  - by rewrite update_ids.
  - simpl. apply NoDup_fmap_snoc; [done|].
    apply (next_id_fresh Attendance.id (attendance d)).
Qed.

Lemma save_one_unique (d : db) (it : Z * bool) :
  attendance_pk d -> attendance_unique d -> attendance_unique (save_one c date d it).
Proof.
  intros Hpk Huniq c' k' dt'.
  destruct (decide (c' = c ∧ k' = it.1 ∧ dt' = date)) as [(-> & -> & ->)|Hne].
  - destruct it as [k v]. change ((k, v).1) with k.
    destruct (save_one_same d k v Huniq) as (a & -> & _). done.
  - rewrite save_one_other by done. apply Huniq.
Qed.

Lemma save_one_students (d : db) (it : Z * bool) :
  students (save_one c date d it) = students d.
Proof. unfold save_one. by destruct (fetch_attendance_id _ _ _ _). Qed.

Lemma save_one_bits (d : db) (it : Z * bool) :
  present_is_bit d -> present_is_bit (save_one c date d it).
Proof.
  intros Hbit. unfold save_one, present_is_bit in *.
  assert (bit it.2 = 0 ∨ bit it.2 = 1) as Hv by (destruct it.2; [by right|by left]).
  destruct (fetch_attendance_id d c it.1 date) as [i|]; simpl.
  - apply Forall_fmap. eapply Forall_impl; [exact Hbit|].
    intros a Ha. simpl. by case_decide.
  - apply Forall_app. split; [done|]. by constructor.
Qed.

Lemma save_items_pk (items : list (Z * bool)) (d : db) :
  attendance_pk d -> attendance_pk (save_items c date items d).
Proof.
  revert d. induction items as [|it items IH]; intros d Hpk; [done|].
  apply IH. by apply save_one_pk.
Qed.

Lemma save_items_unique (items : list (Z * bool)) (d : db) :
  attendance_pk d -> attendance_unique d -> attendance_unique (save_items c date items d).
Proof.
  revert d. induction items as [|it items IH]; intros d Hpk Huniq; [done|].
  apply IH; [by apply save_one_pk|by apply save_one_unique].
Qed.

Lemma save_items_students (items : list (Z * bool)) (d : db) :
  students (save_items c date items d) = students d.
Proof.
  revert d. induction items as [|it items IH]; intros d; [done|].
  change (save_items c date (it :: items) d)
    with (save_items c date items (save_one c date d it)).
  by rewrite IH, save_one_students.
Qed.

Lemma save_items_bits (items : list (Z * bool)) (d : db) :
  present_is_bit d -> present_is_bit (save_items c date items d).
Proof.
  revert d. induction items as [|it items IH]; intros d Hbit; [done|].
  apply IH. by apply save_one_bits.
Qed.

(** The loop does not touch the rows of a student who is not in the dict. *)
Lemma save_items_other (items : list (Z * bool)) (d : db) (k : Z) :
  attendance_pk d -> k ∉ items.*1 ->
  filter (same_key c k date) (rows (attendance (save_items c date items d)))
  = filter (same_key c k date) (rows (attendance d)).
Proof.
  revert d. induction items as [|it items IH]; intros d Hpk Hk; [done|].
  rewrite fmap_cons in Hk. apply not_elem_of_cons in Hk as [Hne Hk].
  change (save_items c date (it :: items) d)
    with (save_items c date items (save_one c date d it)).
  rewrite IH; [|by apply save_one_pk|done].
  apply save_one_other; [done|]. intros (_ & ? & _). done.
Qed.

(** After the loop, every student of the dict has exactly one row for the
    date: the row there was before, with [present] replaced by the checkbox,
    or else a new row with the checkbox and no note. *)
Lemma save_items_spec (items : list (Z * bool)) (d : db) (k : Z) (v : bool) :
  attendance_pk d -> attendance_unique d -> NoDup items.*1 -> (k, v) ∈ items ->
  exists a,
    filter (same_key c k date) (rows (attendance (save_items c date items d))) = [a]
    ∧ Attendance.present a = bit v
    ∧ match head (filter (same_key c k date) (rows (attendance d))) with
      | Some a0 => a = set_present (bit v) a0
      | None => Attendance.note a = None
      end.
Proof.
  revert d. induction items as [|it items IH]; intros d Hpk Huniq Hnd Hin;
    [by apply elem_of_nil in Hin|].
  rewrite fmap_cons in Hnd. apply NoDup_cons in Hnd as [Hnotin Hnd].
  apply elem_of_cons in Hin as [<-|Hin].
  - destruct (save_one_same d k v Huniq) as (a & Hfil & Ha).
    exists a. split; [|split].
    + change (save_items c date ((k, v) :: items) d)
        with (save_items c date items (save_one c date d (k, v))).
      rewrite save_items_other; [done|by apply save_one_pk|done].
    + destruct (head _); by subst a.
    + destruct (head _); by subst a.
  - assert (it.1 ≠ k) as Hne.
    { intros <-. apply Hnotin. by apply (list_elem_of_fmap_2 fst) in Hin. }
    destruct (IH (save_one c date d it)) as (a & Hfil & Hp & Ha);
      [by apply save_one_pk|by apply save_one_unique|done|done|].
    exists a. split; [done|]. split; [done|].
    rewrite save_one_other in Ha; [done|done|]. intros (_ & ? & _). done.
Qed.

(** When every student of the dict already has a row for the date, the loop
    only updates: the table keeps its length. *)
Lemma save_items_length (items : list (Z * bool)) (d : db) :
  attendance_pk d -> attendance_unique d ->
  (forall k, k ∈ items.*1 -> filter (same_key c k date) (rows (attendance d)) ≠ []) ->
  length (rows (attendance (save_items c date items d))) = length (rows (attendance d)).
Proof.
  revert d. induction items as [|[k v] items IH]; intros d Hpk Huniq Hall; [done|].
  change (save_items c date ((k, v) :: items) d)
    with (save_items c date items (save_one c date d (k, v))).
  rewrite IH; [|by apply save_one_pk|by apply save_one_unique|].
  - unfold save_one. simpl.
    destruct (fetch_attendance_id d c k date) as [i|] eqn:Hfetch.
    + simpl. by rewrite length_fmap.
    + apply fetch_none in Hfetch. destruct (Hall k); [left|done].
  - intros k' Hk'. destruct (decide (k' = k)) as [->|Hne].
    + destruct (save_one_same d k v Huniq) as (a & -> & _). done.
    + rewrite save_one_other; [|done|by intros (_ & ? & _)].
      apply Hall. by right.
Qed.
End SaveOne.

(** The handler keeps attendance.id a primary key and the triple unique. *)
Lemma guardar_asistencia_invariant (c : Z) (date : string) (chk : Z -> bool) (d : db) :
  attendance_pk d -> attendance_unique d ->
  attendance_pk (guardar_asistencia c date chk d).1
  ∧ attendance_unique (guardar_asistencia c date chk d).1.
Proof.
  intros Hpk Huniq. split; [by apply save_items_pk|by apply save_items_unique].
Qed.

Lemma guardar_asistencia_bits (c : Z) (date : string) (chk : Z -> bool) (d : db) :
  present_is_bit d -> present_is_bit (guardar_asistencia c date chk d).1.
Proof. apply save_items_bits. Qed.

(** In a store where attendance.id is a primary key and no (class, student,
    date) has two rows, saving attendance twice for a class and a date leaves,
    for every student, exactly one row of that triple: the second save inserts
    nothing, it rewrites [present] of the row the first save left, whose id
    stays the same.  Neither save writes the note: it is the note the triple
    had before the first save, NULL if it had no row. *)
Lemma save_twice (d : db) (c : Z) (date : string)
    (chk1 chk2 : Z -> bool) (s : Student.row) :
  attendance_pk d -> attendance_unique d -> s ∈ rows (students d) ->
  let d1 := (guardar_asistencia c date chk1 d).1 in
  let d2 := (guardar_asistencia c date chk2 d1).1 in
  let triple := same_key c (Student.id s) date in
  exists a1 a2,
    filter triple (rows (attendance d1)) = [a1]
    ∧ filter triple (rows (attendance d2)) = [a2]
    ∧ length (rows (attendance d2)) = length (rows (attendance d1))
    ∧ Attendance.id a2 = Attendance.id a1
    ∧ Attendance.present a2 = bit (chk2 (Student.id s))
    ∧ Attendance.note a2 = Attendance.note a1
    ∧ Attendance.note a1
      = head (filter triple (rows (attendance d))) ≫= Attendance.note.
Proof.
  intros Hpk Huniq Hs d1 d2 triple. subst d1 d2. simpl.
  set (d1 := save_items c date (present_dict chk1 d) d).
  assert (students d1 = students d) as Hst by apply save_items_students.
  assert (attendance_pk d1) as Hpk1 by (by apply save_items_pk).
  assert (attendance_unique d1) as Huniq1 by (by apply save_items_unique).
  destruct (present_dict_spec chk1 d) as (Hnd1 & _ & Hkeys1).
  destruct (present_dict_spec chk2 d1) as (Hnd2 & _ & Hkeys2).
  destruct (save_items_spec c date _ d _ _ Hpk Huniq Hnd1 (present_dict_item chk1 d s Hs))
    as (a1 & Hfil1 & _ & Hold).
  fold d1 in Hfil1. fold triple in Hfil1, Hold.
  assert (s ∈ rows (students d1)) as Hs1 by (by rewrite Hst).
  destruct (save_items_spec c date _ d1 _ _ Hpk1 Huniq1 Hnd2 (present_dict_item chk2 d1 s Hs1))
    as (a2 & Hfil2 & Hp2 & Hnew).
  fold triple in Hfil2, Hnew. rewrite Hfil1 in Hnew. simpl in Hnew.
  exists a1, a2. split; [done|]. split; [done|]. split.
  { apply save_items_length; [done|done|].
    intros k Hk. apply Hkeys2 in Hk. rewrite Hst in Hk. apply Hkeys1 in Hk.
    apply list_elem_of_fmap in Hk as ([k' v] & -> & Hin).
    destruct (save_items_spec c date _ d _ _ Hpk Huniq Hnd1 Hin) as (a & Hfil & _).
    fold d1 in Hfil. simpl. by rewrite Hfil. }
  subst a2. repeat (split; [done|]).
  destruct (head (filter triple (rows (attendance d)))) as [a0|]; [|done].
  by subst a1.
Qed.

(** ** Importar CSV: duplicados *)

Lemma count_unique_key {A K} `{!EqDecision K} (key : A -> K) (l : list A) (k : K) :
  NoDup (key <$> l) -> k ∈ key <$> l ->
  length (filter (fun x => key x = k) l) = 1%nat.
Proof.
  intros Hnd (x & -> & Hx)%list_elem_of_fmap.
  by rewrite (filter_unique_key key l x Hnd Hx).
Qed.

Lemma insert_student_dup (d : db) (code : string) (first last : option string) :
  code ∈ Student.student_code <$> rows (students d) ->
  insert_student d code first last = Raise IntegrityError.
Proof. intros Hin. unfold insert_student. by rewrite decide_True. Qed.

Lemma insert_student_ok (d d' : db) (code : string) (first last : option string) :
  insert_student d code first last = Ok d' ->
  (code ∉ Student.student_code <$> rows (students d))
  ∧ rows (students d')
    = (rows (students d)
       ++ [Student.mk (next_id Student.id (students d)) code first last None]).
Proof.
  unfold insert_student. case_decide; [done|]. by intros [= <-].
Qed.

Section Duplicados.
Context {cell : Type} (str : cell -> string) (bind : cell -> result (option string)).

Lemma import_row_dup (d : db) (r : string -> cell) :
  str (r "student_code") ∈ Student.student_code <$> rows (students d) ->
  import_row str bind d r = d.
Proof.
  intros Hin. unfold import_row, execute_insert_student.
  destruct (bind (r "first_name")) as [f|e]; [|done].
  destruct (bind (r "last_name")) as [l|e]; [|done].
  by rewrite insert_student_dup.
Qed.

(** A turn of the loop either leaves the table as it is or appends one row
    with a code the table did not have. *)
Lemma import_row_rows (d : db) (r : string -> cell) :
  rows (students (import_row str bind d r)) = rows (students d)
  ∨ exists s, rows (students (import_row str bind d r)) = rows (students d) ++ [s]
      ∧ (Student.student_code s ∉ Student.student_code <$> rows (students d))
      ∧ Student.id s = next_id Student.id (students d).
Proof.
  unfold import_row.
  destruct (execute_insert_student bind d _ _ _) as [d'|e] eqn:Hex; [|by left].
  unfold execute_insert_student in Hex.
  destruct (bind (r "first_name")) as [f|?]; [|done].
  destruct (bind (r "last_name")) as [l|?]; [|done].
  apply insert_student_ok in Hex as [Hnew ->]. right. by eexists.
Qed.

Lemma import_row_prefix (d : db) (r : string -> cell) :
  rows (students d) `prefix_of` rows (students (import_row str bind d r)).
Proof.
  destruct (import_row_rows d r) as [->|(s & -> & _ & _)]; [done|].
  by apply prefix_app_r.
Qed.

Lemma import_row_unique (d : db) (r : string -> cell) :
  students_unique d -> students_unique (import_row str bind d r).
Proof.
  unfold students_unique. intros Hnd.
  destruct (import_row_rows d r) as [->|(s & -> & Hnew & _)]; [done|].
  by apply NoDup_fmap_snoc.
Qed.

Lemma import_row_pk (d : db) (r : string -> cell) :
  students_pk d -> students_pk (import_row str bind d r).
Proof.
  unfold students_pk. intros Hnd.
  destruct (import_row_rows d r) as [->|(s & -> & _ & Hid)]; [done|].
  apply NoDup_fmap_snoc; [done|]. rewrite Hid.
  apply (next_id_fresh Student.id (students d)).
Qed.

(** The import writes to students only. *)
Lemma import_row_frame (d : db) (r : string -> cell) :
  teachers (import_row str bind d r) = teachers d
  ∧ attendance (import_row str bind d r) = attendance d
  ∧ grades (import_row str bind d r) = grades d.
Proof.
  unfold import_row, execute_insert_student, insert_student.
  destruct (bind (r "first_name")); [|done].
  destruct (bind (r "last_name")); [|done].
  by case_decide.
Qed.

Lemma import_rows_invariant (l : list (string -> cell)) (d : db) :
  invariant d -> invariant (foldl (import_row str bind) d l).
Proof.
  revert d. induction l as [|r l IH]; intros d Hinv; [done|].
  apply IH. destruct Hinv, (import_row_frame d r) as (Ht & Ha & Hg).
  constructor;
    unfold teachers_unique, teachers_stripped, attendance_pk, attendance_unique,
      present_is_bit, grades_in_range;
    rewrite ?Ht, ?Ha, ?Hg; try done.
  - by apply import_row_pk.
  - by apply import_row_unique.
Qed.

Lemma import_rows_prefix (l : list (string -> cell)) (d : db) :
  rows (students d) `prefix_of` rows (students (foldl (import_row str bind) d l)).
Proof.
  revert d. induction l as [|r l IH]; intros d; [done|].
  simpl. etrans; [apply (import_row_prefix d r)|apply IH].
Qed.

Lemma import_rows_unique (l : list (string -> cell)) (d : db) :
  students_unique d -> students_unique (foldl (import_row str bind) d l).
Proof.
  revert d. induction l as [|r l IH]; intros d Hnd; [done|].
  simpl. by apply IH, import_row_unique.
Qed.

(** C6.  A frame with the required columns one of whose rows carries a
    student_code the store already has is imported with the success notice:
    when the loop reaches that row the INSERT fails and the store is left as
    it is, the loop goes on with the rows after it, the rows it inserted
    before are still in the table at the end, and the table ends with exactly
    one row of that code (student_code being unique in the store). *)
Theorem importar_csv_duplicate (df : DataFrame cell) (d : db)
    (pre post : list (string -> cell)) (r : string -> cell) :
  required ⊆ list_to_set (columns df) ->
  iterrows df = pre ++ r :: post ->
  students_unique d ->
  str (r "student_code") ∈ Student.student_code <$> rows (students d) ->
  let before := foldl (import_row str bind) d pre in
  let res := importar_csv str bind (Some df) d in
  res.2 = success "Alumnos importados (se ignoraron duplicados)"
  ∧ import_row str bind before r = before
  ∧ res.1 = foldl (import_row str bind) before post
  ∧ rows (students before) `prefix_of` rows (students res.1)
  ∧ length (filter (fun s => Student.student_code s = str (r "student_code"))
                   (rows (students res.1))) = 1%nat.
Proof.
  intros Hcols Hrows Huniq Hdup before res.
  assert (str (r "student_code") ∈ Student.student_code <$> rows (students before)) as Hin.
  { destruct (import_rows_prefix pre d) as [k Hk]. fold before in Hk.
    rewrite Hk, fmap_app. apply elem_of_app. by left. }
  assert (import_row str bind before r = before) as Hskip by (by apply import_row_dup).
  assert (res = (foldl (import_row str bind) before post,
                 success "Alumnos importados (se ignoraron duplicados)")) as ->.
  { subst res. unfold importar_csv. rewrite decide_True by done.
    rewrite Hrows, foldl_app. simpl. fold before. by rewrite Hskip. }
  simpl. repeat (split; [done|]). split; [apply import_rows_prefix|].
  apply count_unique_key.
  - apply import_rows_unique. subst before. by apply import_rows_unique.
  - destruct (import_rows_prefix post before) as [k Hk].
    rewrite Hk, fmap_app. apply elem_of_app. by left.
Qed.
End Duplicados.

Lemma importar_csv_duplicate_witness :
  (importar_csv id text_cell (Some segunda_lista) escuela).2
  = success "Alumnos importados (se ignoraron duplicados)"
  ∧ Student.student_code <$> rows (students (importar_csv id text_cell (Some segunda_lista) escuela).1)
    = ["A001"; "A002"; "A003"; "A004"]
  ∧ length (filter (fun s => Student.student_code s = "A001")
              (rows (students (importar_csv id text_cell (Some segunda_lista) escuela).1)))
    = 1%nat.
Proof.
  assert (required ⊆ list_to_set (columns segunda_lista)) as Hcols by compute_done.
  assert (students_unique escuela) as Huniq by (unfold students_unique; compute_done).
  assert (id (fila "A001" "Juan" "Perez" "student_code")
          ∈ Student.student_code <$> rows (students escuela)) as Hdup by compute_done.
  destruct (importar_csv_duplicate id text_cell segunda_lista escuela
              [fila "A003" "Ana" "Ruiz"] [fila "A004" "Luis" "Diaz"]
              (fila "A001" "Juan" "Perez") Hcols eq_refl Huniq Hdup)
    as (Hmsg & _ & _ & _ & Hone).
  split; [exact Hmsg|]. split; [reflexivity|exact Hone].
Defined.

(** ** Agregar profesor *)

Section Skip.
Context (ws : list (list ascii)).

Lemma skip_Some (l r : list ascii) :
  skip ws l = Some r -> exists w, w ∈ ws ∧ l = w ++ r.
Proof.
  unfold skip. intros Hh.
  apply head_Some_elem_of in Hh.
  apply list_elem_of_omap in Hh as (w & Hw & Hr).
  destruct (decide (w `prefix_of` l)) as [[k ->]|]; [|done].
  exists w. split; [done|]. injection Hr as <-. by rewrite drop_app_length.
Qed.

Lemma skip_None (l : list ascii) :
  skip ws l = None <-> forall w, w ∈ ws -> ¬ w `prefix_of` l.
Proof.
  unfold skip. rewrite head_None. split.
  - intros Hnil w Hw Hpre.
    assert (drop (length w) l ∈ omap (fun w => if decide (w `prefix_of` l)
              then Some (drop (length w) l) else None) ws) as Hin.
    { apply list_elem_of_omap. exists w. split; [done|]. by rewrite decide_True. }
    rewrite Hnil in Hin. by apply elem_of_nil in Hin.
  - intros Hno. destruct (omap _ ws) as [|r rest] eqn:Hom; [done|].
    assert (r ∈ omap (fun w => if decide (w `prefix_of` l)
              then Some (drop (length w) l) else None) ws) as Hin by (rewrite Hom; left).
    apply list_elem_of_omap in Hin as (w & Hw & Hr).
    destruct (decide (w `prefix_of` l)); [|done]. by destruct (Hno w Hw).
Qed.

(** A text that starts with no character of [ws] is left as it is. *)
Lemma lstrip_with_id (n : nat) (l : list ascii) :
  skip ws l = None -> lstrip_with ws n l = l.
Proof. intros Hno. destruct n; [done|]. simpl. by rewrite Hno. Qed.

(** With enough fuel the result starts with no character of [ws]; it is a
    suffix of the text. *)
Lemma lstrip_with_spec (n : nat) (l : list ascii) :
  Forall (fun w => w ≠ []) ws -> (length l <= n)%nat ->
  skip ws (lstrip_with ws n l) = None ∧ lstrip_with ws n l `suffix_of` l.
Proof.
  intros Hne. revert l. induction n as [|n IH]; intros l Hlen.
  - destruct l; [|simpl in Hlen; lia]. simpl. split; [|done].
    apply skip_None. intros w Hw Hpre. rewrite Forall_forall in Hne.
    apply (Hne w Hw). by apply prefix_nil_inv.
  - simpl. destruct (skip ws l) as [r|] eqn:Hskip; [|done].
    apply skip_Some in Hskip as (w & Hw & ->).
    rewrite Forall_forall in Hne. specialize (Hne w Hw).
    destruct (IH r) as [Hno Hsuf].
    { rewrite length_app in Hlen. destruct w; [done|]. simpl in Hlen. lia. }
    split; [done|]. etrans; [exact Hsuf|]. by apply suffix_app_r.
Qed.

Lemma skip_prefix (p l : list ascii) :
  p `prefix_of` l -> skip ws l = None -> skip ws p = None.
Proof.
  rewrite !skip_None. intros Hp Hno w Hw Hpre. apply (Hno w Hw). by etrans.
Qed.
End Skip.

Lemma spaces_nonempty : Forall (fun w => w ≠ []) spaces.
Proof. unfold spaces. apply Forall_fmap, Forall_forall. intros cp Hcp.
  unfold white_space in Hcp. repeat (apply elem_of_cons in Hcp as [->|Hcp]; [done|]).
  by apply elem_of_nil in Hcp. Qed.

Lemma spaces_rev_nonempty : Forall (fun w => w ≠ []) (reverse <$> spaces).
Proof.
  apply Forall_fmap. eapply Forall_impl; [apply spaces_nonempty|].
  intros w Hw Hrev. apply Hw. simpl in Hrev.
  by rewrite <- (reverse_involutive w), Hrev.
Qed.

Lemma lstrip_chars_head (l : list ascii) : skip spaces (lstrip_chars l) = None.
Proof. by apply lstrip_with_spec; [apply spaces_nonempty|]. Qed.

Lemma rstrip_chars_prefix (l : list ascii) : rstrip_chars l `prefix_of` l.
Proof.
  unfold rstrip_chars.
  destruct (lstrip_with_spec (reverse <$> spaces) (length l) (reverse l)) as [_ Hsuf];
    [apply spaces_rev_nonempty|by rewrite length_reverse|].
  apply (proj1 (suffix_prefix_reverse _ _)) in Hsuf.
  by rewrite reverse_involutive in Hsuf.
Qed.

Lemma rstrip_chars_idemp (l : list ascii) : rstrip_chars (rstrip_chars l) = rstrip_chars l.
Proof.
  unfold rstrip_chars at 1.
  unfold rstrip_chars. rewrite reverse_involutive. f_equal.
  apply lstrip_with_id.
  apply lstrip_with_spec; [apply spaces_rev_nonempty|by rewrite length_reverse].
Qed.

Lemma strip_idemp (s : string) : strip (strip s) = strip s.
Proof.
  unfold strip, rstrip, lstrip.
  rewrite !list_ascii_of_string_of_list_ascii. f_equal.
  set (l := lstrip_chars (list_ascii_of_string s)).
  assert (lstrip_chars (rstrip_chars l) = rstrip_chars l) as ->.
  { apply lstrip_with_id.
    apply (skip_prefix spaces _ l); [apply rstrip_chars_prefix|apply lstrip_chars_head]. }
  apply rstrip_chars_idemp.
Qed.

Lemma insert_teacher_dup (d : db) (name email : string) :
  name ∈ Teacher.name <$> rows (teachers d) ->
  insert_teacher d name email = Raise IntegrityError.
Proof. intros Hin. unfold insert_teacher. by rewrite decide_True. Qed.

Lemma insert_teacher_new (d : db) (name email : string) :
  name ∉ Teacher.name <$> rows (teachers d) ->
  insert_teacher d name email
  = Ok (with_teachers d
          (insert_row Teacher.id (teachers d) (fun i => Teacher.mk i name email))).
Proof. intros Hin. unfold insert_teacher. by rewrite decide_False. Qed.

(** What the handler does, by cases on the stripped name. *)
Lemma agregar_profesor_cases (name email : string) (d : db) :
  (strip name = "" ∧ agregar_profesor name email d = (d, shown (warning "Ingrese un nombre")))
  ∨ (strip name ≠ "" ∧ strip name ∈ Teacher.name <$> rows (teachers d)
     ∧ agregar_profesor name email d = (d, shown (error "Ya existe ese profesor")))
  ∨ (strip name ≠ "" ∧ (strip name ∉ Teacher.name <$> rows (teachers d))
     ∧ agregar_profesor name email d
       = (with_teachers d
            (insert_row Teacher.id (teachers d)
               (fun i => Teacher.mk i (strip name) (strip email))),
          shown (success "Profesor agregado"))).
Proof.
  unfold agregar_profesor.
  destruct (decide (strip name = "")) as [Hempty|Hname]; [by left|]. right.
  destruct (decide (strip name ∈ Teacher.name <$> rows (teachers d))) as [Hin|Hnew].
  - left. by rewrite insert_teacher_dup.
  - right. by rewrite insert_teacher_new.
Qed.

(** After the handler ran on a name that is not blank, the name is stored. *)
Lemma agregar_profesor_stored (name email : string) (d : db) :
  strip name ≠ "" ->
  strip name ∈ Teacher.name <$> rows (teachers (agregar_profesor name email d).1).
Proof.
  intros Hname.
  destruct (agregar_profesor_cases name email d)
    as [[? _]|[(_ & Hin & ->)|(_ & _ & ->)]]; [done|done|].
  simpl. rewrite fmap_app. apply elem_of_app. right. by left.
Qed.

(** The handler keeps teachers.name unique, stripped and not empty. *)
Lemma agregar_profesor_invariant (name email : string) (d : db) :
  teachers_unique d -> teachers_stripped d ->
  teachers_unique (agregar_profesor name email d).1
  ∧ teachers_stripped (agregar_profesor name email d).1.
Proof.
  intros Huniq Hstr.
  destruct (agregar_profesor_cases name email d)
    as [[_ ->]|[(_ & _ & ->)|(Hname & Hnew & ->)]]; [done|done|].
  unfold teachers_unique, teachers_stripped. simpl. split.
  - by apply NoDup_fmap_snoc.
  - apply Forall_app. split; [done|]. constructor; [|done].
    simpl. split; [apply strip_idemp|done].
Qed.

(** C7.  A create whose name, as the form stores it (stripped, not blank), is
    already the name of a teacher shows the error "Ya existe ese profesor"
    and returns the store it was given; no other path of the handler shows
    that error.  Hence, in a store with unique names, after one add a second
    add of the same name is refused and the exported table has exactly one
    row of that name. *)
Theorem agregar_profesor_duplicate (name email : string) (d : db) :
  (strip name ≠ "" -> strip name ∈ Teacher.name <$> rows (teachers d) ->
   agregar_profesor name email d = (d, shown (error "Ya existe ese profesor")))
  ∧ (teachers_stripped d -> name ∈ Teacher.name <$> rows (teachers d) ->
     agregar_profesor name email d = (d, shown (error "Ya existe ese profesor")))
  ∧ ((agregar_profesor name email d).2 = shown (error "Ya existe ese profesor")
     <-> strip name ≠ "" ∧ strip name ∈ Teacher.name <$> rows (teachers d))
  ∧ (teachers_unique d -> strip name ≠ "" ->
     forall name2 email2 : string, strip name2 = strip name ->
     let d1 := (agregar_profesor name email d).1 in
     agregar_profesor name2 email2 d1 = (d1, shown (error "Ya existe ese profesor"))
     ∧ length (filter (fun t => Teacher.name t = strip name) (exportar_teachers d1))
       = 1%nat).
Proof.
  assert (forall n e d', strip n ≠ "" -> strip n ∈ Teacher.name <$> rows (teachers d') ->
          agregar_profesor n e d' = (d', shown (error "Ya existe ese profesor"))) as Hdup.
  { intros n e d' Hn Hin.
    destruct (agregar_profesor_cases n e d') as [[? _]|[(_ & _ & ->)|(_ & ? & _)]]; done. }
  split; [apply Hdup|]. split; [|split].
  - intros Hstr Hin. unfold teachers_stripped in Hstr. rewrite Forall_forall in Hstr.
    apply list_elem_of_fmap in Hin as (t & -> & Ht).
    destruct (Hstr t Ht) as [Hs Hne].
    apply Hdup; rewrite Hs; [done|]. by apply list_elem_of_fmap_2.
  - split.
    + intros Hout.
      destruct (agregar_profesor_cases name email d)
        as [[_ Heq]|[(? & ? & _)|(_ & _ & Heq)]]; [|done|]; by rewrite Heq in Hout.
    + intros [Hn Hin]. by rewrite Hdup.
  - intros Huniq Hn name2 email2 Hsame d1.
    pose proof (agregar_profesor_stored name email d Hn) as Hin. fold d1 in Hin.
    split; [apply Hdup; by rewrite Hsame|].
    apply count_unique_key; [|done].
    subst d1. unfold exportar_teachers. unfold teachers_unique in Huniq.
    destruct (agregar_profesor_cases name email d)
      as [[_ ->]|[(_ & _ & ->)|(_ & Hnew & ->)]]; [done|done|].
    simpl. by apply NoDup_fmap_snoc.
Qed.

Lemma agregar_profesor_duplicate_witness :
  let d1 := (agregar_profesor "A. Lopez" "a@x.edu" init_db).1 in
  agregar_profesor "A. Lopez" "a@x.edu" d1
  = (d1, shown (error "Ya existe ese profesor"))
  ∧ agregar_profesor (" A. Lopez" +:+ nbsp) "b@x.edu" d1
    = (d1, shown (error "Ya existe ese profesor"))
  ∧ exportar_teachers (agregar_profesor "A. Lopez" "a@x.edu" d1).1
    = [Teacher.mk 1 "A. Lopez" "a@x.edu"]
  ∧ length (filter (fun t => Teacher.name t = "A. Lopez") (exportar_teachers d1)) = 1%nat.
Proof.
  intros d1.
  destruct (agregar_profesor_duplicate "A. Lopez" "a@x.edu" d1) as (Hdup & Hstr & _ & _).
  destruct (agregar_profesor_duplicate "A. Lopez" "a@x.edu" init_db) as (_ & _ & _ & Htwice).
  destruct (Htwice ltac:(constructor) ltac:(by vm_compute)
              (" A. Lopez" +:+ nbsp) "b@x.edu" ltac:(by vm_compute))
    as [Hsecond Hone].
  assert (agregar_profesor "A. Lopez" "a@x.edu" d1
          = (d1, shown (error "Ya existe ese profesor"))) as Heq.
  { apply Hdup; [by vm_compute|compute_done]. }
  assert (teachers_stripped d1) as Hd1 by (unfold teachers_stripped; compute_done).
  pose proof (Hstr Hd1 ltac:(compute_done)) as _.
  split; [exact Heq|]. split; [exact Hsecond|]. split; [by rewrite Heq|exact Hone].
Defined.

(** ** Examenes *)

Lemma left_join_nonempty {B} (P : B -> Prop) `{!forall b, Decision (P b)} (bs : list B) :
  left_join P bs ≠ [].
Proof. unfold left_join. by destruct (filter P bs). Qed.

Lemma nonempty_elem {A} (l : list A) : l ≠ [] -> exists x, x ∈ l.
Proof. destruct l as [|x l]; [done|]. intros _. exists x. left. Qed.

(** Every listed exam comes from a row of exams, with its id and file name. *)
Lemma exams_df_elem (d : db) (row : ExamView.row) :
  row ∈ exams_df d ->
  exists e, e ∈ rows (exams d) ∧ Exam.id e = ExamView.id row
    ∧ Exam.file_name e = ExamView.file_name row.
Proof.
  unfold exams_df. rewrite merge_sort_Permutation.
  intros (e & Hrow & He)%list_elem_of_bind.
  apply list_elem_of_bind in Hrow as (s & Hrow & _).
  apply list_elem_of_bind in Hrow as (cl & Hrow & _).
  apply list_elem_of_singleton in Hrow as ->. by exists e.
Qed.

(** Every row of exams is listed. *)
Lemma exams_df_has (d : db) (e : Exam.row) :
  e ∈ rows (exams d) -> exists row, row ∈ exams_df d ∧ ExamView.id row = Exam.id e.
Proof.
  intros He.
  destruct (nonempty_elem _ (left_join_nonempty
    (fun s => Exam.subject_id e = Some (Subject.id s)) (rows (subjects d)))) as [s Hs].
  destruct (nonempty_elem _ (left_join_nonempty
    (fun cl => Exam.class_id e = Some (Class.id cl)) (rows (classes d)))) as [cl Hcl].
  eexists. split.
  - unfold exams_df. rewrite merge_sort_Permutation.
    apply list_elem_of_bind. exists e. split; [|done].
    apply list_elem_of_bind. exists s. split; [|done].
    apply list_elem_of_bind. exists cl. split; [|done].
    apply list_elem_of_singleton. reflexivity.
  - done.
Qed.

(** C8.  Deleting a listed exam tries to unlink its file and, whatever that
    does to the directory and whether or not it raises, goes on to delete the
    metadata row and shows the success notice: afterwards no row of exams has
    the selected id and every other row is still there.  In particular an
    unlink that fails because the file is missing changes nothing of this. *)
Theorem eliminar_examen_best_effort {fs} `{BlobStore fs} (sel : Z) (d : db) (f : fs) :
  sel ∈ Exam.id <$> rows (exams d) ->
  exists e, e ∈ rows (exams d) ∧ Exam.id e = sel
    ∧ (forall (f' : fs) (raised : option exn),
         unlink f (Exam.file_name e) = (f', raised) ->
         eliminar_examen sel d f
         = (delete_exam d sel, f', shown (success "Examen eliminado.")))
    ∧ (sel ∉ Exam.id <$> rows (exams (delete_exam d sel)))
    ∧ (forall e', e' ∈ rows (exams (delete_exam d sel))
                  <-> e' ∈ rows (exams d) ∧ Exam.id e' ≠ sel).
Proof.
  intros (e0 & Hid & He0)%list_elem_of_fmap.
  destruct (exams_df_has d e0 He0) as (row0 & Hrow0 & Hid0).
  unfold eliminar_examen.
  destruct (filter (fun r => ExamView.id r = sel) (exams_df d)) as [|row rest] eqn:Hfil.
  { exfalso. apply (filter_nil_not_elem_of _ _ row0 Hfil); [congruence|done]. }
  assert (row ∈ filter (fun r => ExamView.id r = sel) (exams_df d)) as Hrow
    by (rewrite Hfil; left).
  apply list_elem_of_filter in Hrow as [Hsel Hrow].
  destruct (exams_df_elem d row Hrow) as (e & He & Heid & Hname).
  exists e. split; [done|]. split; [congruence|]. split; [|split].
  - intros f' raised Hunlink. simpl. by rewrite <- Hname, Hunlink.
  - simpl. intros (e' & Hid' & He')%list_elem_of_fmap.
    apply list_elem_of_filter in He' as [Hne _]. done.
  - intros e'. simpl. rewrite list_elem_of_filter. tauto.
Qed.

Lemma eliminar_examen_best_effort_witness :
  files disco !! "exam_20240304093000_parcial.pdf" = None
  ∧ eliminar_examen 1 escuela_examen disco
    = (with_exams escuela_examen (mk_table [] 1), disco,
       shown (success "Examen eliminado.")).
Proof.
  split; [reflexivity|].
  destruct (eliminar_examen_best_effort 1 escuela_examen disco ltac:(compute_done))
    as (e & He & _ & Hdel & _).
  apply list_elem_of_singleton in He.
  rewrite (Hdel disco (Some OSError)) by (by rewrite He).
  reflexivity.
Defined.

(** C9.  If writing the bytes raises, the exception leaves the handler
    uncaught and the store is returned as it was: no row is inserted into
    exams.  Conversely the handler changes the store only after a write that
    raised nothing. *)
Theorem subir_examen_write_failure {fs} `{BlobStore fs}
    (file : option (string * list Byte.byte)) (uploaded_by : string)
    (subject_choice class_choice : option Z * string) (timestamp now : string)
    (d : db) (f : fs) :
  let res := subir_examen file uploaded_by subject_choice class_choice timestamp now d f in
  (forall name buffer f' e,
     file = Some (name, buffer) ->
     write_file f ("exam_" +:+ timestamp +:+ "_" +:+ name) buffer = (f', Some e) ->
     res = (d, f', uncaught e))
  ∧ (res.1.1 ≠ d ->
     exists name buffer,
       file = Some (name, buffer)
       ∧ write_file f ("exam_" +:+ timestamp +:+ "_" +:+ name) buffer = (res.1.2, None)
       ∧ res.2 = shown (success ("Archivo subido como "
                                 +:+ ("exam_" +:+ timestamp +:+ "_" +:+ name)
                                 +:+ " y registrado correctamente."))).
Proof.
  intros res. subst res. unfold subir_examen. split.
  - intros name buffer f' e -> Hw. by rewrite Hw.
  - destruct file as [[name buffer]|]; [|done].
    destruct (write_file f _ buffer) as [f' [e|]] eqn:Hw; [done|].
    intros _. exists name, buffer. by rewrite Hw.
Qed.

Lemma subir_examen_write_failure_witness :
  subir_examen (Some ("parcial.pdf", parcial_pdf)) "Prof. Perez" ninguna ninguna
    "20240304093000" "2024-03-04T09:30:00.000000" escuela disco_protegido
  = (escuela, disco_protegido, uncaught OSError)
  ∧ exists name buffer,
      write_file disco ("exam_" +:+ "20240304093000" +:+ "_" +:+ name) buffer
      = (disco_examen, None)
      ∧ Exam.original_name <$> rows (exams escuela_examen) = [name].
Proof.
  split.
  - apply (subir_examen_write_failure (Some ("parcial.pdf", parcial_pdf)) "Prof. Perez"
             ninguna ninguna "20240304093000" "2024-03-04T09:30:00.000000" escuela
             disco_protegido) with (name := "parcial.pdf") (buffer := parcial_pdf);
      reflexivity.
  - destruct (subir_examen_write_failure (Some ("parcial.pdf", parcial_pdf)) "Prof. Perez"
                ninguna ninguna "20240304093000" "2024-03-04T09:30:00.000000" escuela
                disco) as [_ Hafter].
    destruct Hafter as (name & buffer & Hfile & Hw & _).
    { intros Heq. apply (f_equal (fun d => length (rows (exams d)))) in Heq.
      vm_compute in Heq. discriminate Heq. }
    injection Hfile as <- <-. exists "parcial.pdf", parcial_pdf. split; [exact Hw|reflexivity].
Defined.

(** ** Every reachable store satisfies the invariant *)

Lemma save_one_frame (c : Z) (date : string) (d : db) (it : Z * bool) :
  teachers (save_one c date d it) = teachers d
  ∧ grades (save_one c date d it) = grades d.
Proof. unfold save_one. by destruct (fetch_attendance_id _ _ _ _). Qed.

Lemma save_items_frame (c : Z) (date : string) (items : list (Z * bool)) (d : db) :
  teachers (save_items c date items d) = teachers d
  ∧ grades (save_items c date items d) = grades d.
Proof.
  revert d. induction items as [|it items IH]; intros d; [done|].
  change (save_items c date (it :: items) d)
    with (save_items c date items (save_one c date d it)).
  destruct (IH (save_one c date d it)) as [-> ->]. apply save_one_frame.
Qed.

Lemma subir_examen_frame {fs} `{BlobStore fs} file uploaded_by subject_choice
    class_choice timestamp now (d : db) (f : fs) :
  let d' := (subir_examen file uploaded_by subject_choice class_choice
               timestamp now d f).1.1 in
  students d' = students d ∧ teachers d' = teachers d
  ∧ attendance d' = attendance d ∧ grades d' = grades d.
Proof.
  unfold subir_examen. destruct file as [[name buffer]|]; [|done].
  by destruct (write_file f _ buffer) as [f' [e|]].
Qed.

Lemma eliminar_examen_frame {fs} `{BlobStore fs} sel (d : db) (f : fs) :
  let d' := (eliminar_examen sel d f).1.1 in
  students d' = students d ∧ teachers d' = teachers d
  ∧ attendance d' = attendance d ∧ grades d' = grades d.
Proof. unfold eliminar_examen. by destruct (head _). Qed.

Lemma agregar_profesor_frame (name email : string) (d : db) :
  let d' := (agregar_profesor name email d).1 in
  students d' = students d ∧ attendance d' = attendance d ∧ grades d' = grades d.
Proof.
  destruct (agregar_profesor_cases name email d)
    as [[_ ->]|[(_ & _ & ->)|(_ & _ & ->)]]; done.
Qed.

Lemma invariant_frame (d d' : db) :
  students d' = students d -> teachers d' = teachers d ->
  attendance d' = attendance d -> grades d' = grades d ->
  invariant d -> invariant d'.
Proof.
  intros Hs Ht Ha Hg []. constructor;
    unfold students_pk, students_unique, teachers_unique, teachers_stripped,
      attendance_pk, attendance_unique, present_is_bit, grades_in_range;
    by rewrite ?Hs, ?Ht, ?Ha, ?Hg.
Qed.

Lemma init_db_invariant : invariant init_db.
Proof.
  constructor; try by constructor.
Qed.

(** X1.  Every store the handlers can reach from a new database keeps the
    invariant: students.id and attendance.id are keys, student_code and
    teachers.name are unique, teacher names are stored stripped and not empty,
    no (class, student, date) has two attendance rows, attendance.present is
    0 or 1, and every grade and weight lies within the bounds of the form. *)
Theorem reachable_invariant (d : db) : reachable d -> invariant d.
Proof.
  induction 1 as [|c sid now grade weight desc d Hrange _ IH|c date checked d _ IH
                  |cell str bind cfile d _ IH|name email d _ IH
                  |fs Hfs file up sc cc ts now d f _ IH|fs Hfs sel d f _ IH
                  |name desc d _ IH|subject teacher cname sched d _ IH
                  |unlinked d _ IH].
  - apply init_db_invariant.
  - destruct IH. constructor; try done. by apply guardar_nota_in_range.
  - destruct (save_items_frame c date (present_dict checked d) d) as [Ht Hg].
    pose proof (save_items_students c date (present_dict checked d) d) as Hs.
    destruct IH. constructor;
      unfold students_pk, students_unique, teachers_unique, teachers_stripped,
        grades_in_range; simpl; rewrite ?Hs, ?Ht, ?Hg; try done.
    + by apply save_items_pk.
    + by apply save_items_unique.
    + by apply save_items_bits.
  - unfold importar_csv. destruct cfile as [df|]; [|done].
    case_decide; [|done]. by apply import_rows_invariant.
  - destruct (agregar_profesor_frame name email d) as (Hs & Ha & Hg).
    destruct (agregar_profesor_invariant name email d) as [Hu Hst];
      [apply IH|apply IH|].
    destruct IH. constructor;
      unfold students_pk, students_unique, attendance_pk, attendance_unique,
        present_is_bit, grades_in_range; rewrite ?Hs, ?Ha, ?Hg; done.
  - destruct (subir_examen_frame file up sc cc ts now d f) as (Hs & Ht & Ha & Hg).
    by apply (invariant_frame d).
  - destruct (eliminar_examen_frame sel d f) as (Hs & Ht & Ha & Hg).
    by apply (invariant_frame d).
  - apply (invariant_frame d); [..|done];
      unfold crear_materia, insert_subject; repeat case_decide; done.
  - by apply (invariant_frame d).
  - destruct unlinked; [apply init_db_invariant|done].
Qed.

(** ** AUTOINCREMENT: the rowids of the seven tables *)

Lemma max_list_le (l : list Z) (b : Z) :
  0 <= b -> Forall (fun i => i <= b) l -> max_list l <= b.
Proof. intros Hb. induction 1 as [|i l Hi _ IH]; simpl; lia. Qed.

Section TableOk.
Context {R : Type} (rowid : R -> Z).

Lemma table_ok_empty : table_ok rowid empty_table.
Proof. split; [constructor|]. split; [constructor|done]. Qed.

(** In such a table the next rowid is one more than the sequence value. *)
Lemma table_ok_next_id (t : table R) :
  table_ok rowid t -> next_id rowid t = sqlite_seq t + 1.
Proof.
  intros (_ & Hle & Hseq). unfold next_id.
  assert (max_list (rowid <$> rows t) <= sqlite_seq t); [|lia].
  apply max_list_le; [done|]. eapply Forall_impl; [exact Hle|]. simpl. lia.
Qed.

Lemma table_ok_insert (t : table R) (mk : Z -> R) :
  (forall i, rowid (mk i) = i) -> table_ok rowid t ->
  table_ok rowid (insert_row rowid t mk).
Proof.
  intros Hmk Hok. pose proof (table_ok_next_id t Hok) as Hnext.
  destruct Hok as (Hnd & Hle & Hseq). unfold insert_row, table_ok.
  cbn [rows sqlite_seq]. split; [|split].
  - apply NoDup_fmap_snoc; [done|]. rewrite Hmk. apply next_id_fresh.
  - rewrite fmap_app. apply Forall_app. split.
    + eapply Forall_impl; [exact Hle|]. simpl. lia.
    + constructor; [|done]. rewrite Hmk. lia.
  - lia.
Qed.

Lemma table_ok_filter (P : R -> Prop) `{!forall r, Decision (P r)} (t : table R) :
  table_ok rowid t -> table_ok rowid (mk_table (filter P (rows t)) (sqlite_seq t)).
Proof.
  intros (Hnd & Hle & Hseq). unfold table_ok. cbn [rows sqlite_seq].
  split; [|split; [|done]].
  - apply (sublist_NoDup _ (rowid <$> rows t)); [done|].
    apply fmap_sublist, sublist_filter.
  - apply Forall_fmap, Forall_forall. intros r [_ Hr]%list_elem_of_filter.
    rewrite Forall_fmap, Forall_forall in Hle. by apply Hle.
Qed.

Lemma table_ok_update (f : R -> R) (t : table R) :
  (forall r, rowid (f r) = rowid r) -> table_ok rowid t ->
  table_ok rowid (mk_table (f <$> rows t) (sqlite_seq t)).
Proof.
  intros Hf Hok. unfold table_ok in *. cbn [rows sqlite_seq].
  assert (rowid <$> (f <$> rows t) = rowid <$> rows t) as ->; [|done].
  rewrite <- list_fmap_compose. apply list_fmap_ext. intros _ r _. apply Hf.
Qed.
End TableOk.

Lemma init_db_tables_ok : tables_ok init_db.
Proof. constructor; apply table_ok_empty. Qed.

Lemma save_one_tables_ok (c : Z) (date : string) (d : db) (it : Z * bool) :
  tables_ok d -> tables_ok (save_one c date d it).
Proof.
  intros []. unfold save_one.
  destruct (fetch_attendance_id d c it.1 date) as [i|]; constructor; simpl; try done.
  - apply table_ok_update; [|done]. intros a. by case_decide.
  - by apply table_ok_insert.
Qed.

Lemma save_items_tables_ok (c : Z) (date : string) (items : list (Z * bool)) (d : db) :
  tables_ok d -> tables_ok (save_items c date items d).
Proof.
  revert d. induction items as [|it items IH]; intros d Hok; [done|].
  apply IH. by apply save_one_tables_ok.
Qed.

Lemma import_row_tables_ok {cell} (str : cell -> string)
    (bind : cell -> result (option string)) (d : db) (r : string -> cell) :
  tables_ok d -> tables_ok (import_row str bind d r).
Proof.
  intros Hok. unfold import_row, execute_insert_student, insert_student.
  destruct (bind (r "first_name")); [|done].
  destruct (bind (r "last_name")); [|done].
  case_decide; [done|]. destruct Hok. constructor; simpl; try done.
  by apply table_ok_insert.
Qed.

Lemma import_rows_tables_ok {cell} (str : cell -> string)
    (bind : cell -> result (option string)) (l : list (string -> cell)) (d : db) :
  tables_ok d -> tables_ok (foldl (import_row str bind) d l).
Proof.
  revert d. induction l as [|r l IH]; intros d Hok; [done|].
  apply IH. by apply import_row_tables_ok.
Qed.

Lemma subir_examen_tables_ok {fs} `{BlobStore fs} file uploaded_by subject_choice
    class_choice timestamp now (d : db) (f : fs) :
  tables_ok d ->
  tables_ok (subir_examen file uploaded_by subject_choice class_choice
               timestamp now d f).1.1.
Proof.
  intros Hok. unfold subir_examen. destruct file as [[name buffer]|]; [|done].
  destruct (write_file f _ buffer) as [f' [e|]]; [done|].
  destruct Hok. constructor; simpl; try done. by apply table_ok_insert.
Qed.

Lemma eliminar_examen_tables_ok {fs} `{BlobStore fs} sel (d : db) (f : fs) :
  tables_ok d -> tables_ok (eliminar_examen sel d f).1.1.
Proof.
  intros Hok. unfold eliminar_examen. destruct (head _); [|done].
  destruct Hok. constructor; simpl; try done.
  by apply (table_ok_filter Exam.id (fun e => Exam.id e ≠ sel)).
Qed.

(** X2.  In every store the handlers can reach, the rowids of each of the
    seven tables are distinct, at least 1 and at most the table's
    sqlite_sequence value. *)
Theorem reachable_tables_ok (d : db) : reachable d -> tables_ok d.
Proof.
  induction 1 as [|c sid now grade weight desc d Hrange _ IH|c date checked d _ IH
                  |cell str bind cfile d _ IH|name email d _ IH
                  |fs Hfs file up sc cc ts now d f _ IH|fs Hfs sel d f _ IH
                  |name desc d _ IH|subject teacher cname sched d _ IH
                  |unlinked d _ IH].
  - apply init_db_tables_ok.
  - destruct IH. constructor; simpl; try done. by apply table_ok_insert.
  - by apply save_items_tables_ok.
  - unfold importar_csv. destruct cfile as [df|]; [|done].
    case_decide; [|done]. by apply import_rows_tables_ok.
  - unfold agregar_profesor, insert_teacher. repeat case_decide; try done.
    destruct IH. constructor; simpl; try done. by apply table_ok_insert.
  - by apply subir_examen_tables_ok.
  - by apply eliminar_examen_tables_ok.
  - unfold crear_materia, insert_subject. repeat case_decide; try done.
    destruct IH. constructor; simpl; try done. by apply table_ok_insert.
  - destruct IH. constructor; simpl; try done. by apply table_ok_insert.
  - destruct unlinked; [apply init_db_tables_ok|done].
Qed.

Lemma escuela_notas_reachable : reachable escuela_notas.
Proof.
  unfold escuela_notas.
  refine (reach_guardar_nota 7 2 _ 70 0 _ _ _ _); [by vm_compute|].
  refine (reach_guardar_nota 7 1 _ 90 3 _ _ _ _); [by vm_compute|].
  refine (reach_guardar_nota 7 1 _ 80 1 _ _ _ _); [by vm_compute|].
  exact (reach_importar_csv id text_cell (Some plantilla) init_db reach_init).
Defined.

Lemma reachable_invariant_witness : invariant escuela_notas.
Proof. exact (reachable_invariant escuela_notas escuela_notas_reachable). Defined.

Lemma reachable_tables_ok_witness : tables_ok escuela_notas.
Proof. exact (reachable_tables_ok escuela_notas escuela_notas_reachable). Defined.

(** ** Examenes: ids, borrado repetido *)

Lemma exams_df_ids (d : db) (sel : Z) :
  filter (fun r => ExamView.id r = sel) (exams_df d) = []
  <-> sel ∉ Exam.id <$> rows (exams d).
Proof.
  split.
  - intros Hnil (e & -> & He)%list_elem_of_fmap.
    destruct (exams_df_has d e He) as (row & Hrow & Hid).
    by apply (filter_nil_not_elem_of _ _ row Hnil).
  - intros Hnot. apply filter_none. intros row Hrow Hid.
    destruct (exams_df_elem d row Hrow) as (e & He & Heid & _).
    apply Hnot. rewrite <- Hid, <- Heid. by apply list_elem_of_fmap_2.
Qed.

Lemma eliminar_examen_db {fs} `{BlobStore fs} (sel : Z) (d : db) (f : fs) :
  sel ∈ Exam.id <$> rows (exams d) -> (eliminar_examen sel d f).1.1 = delete_exam d sel.
Proof.
  intros Hin. unfold eliminar_examen.
  destruct (filter (fun r => ExamView.id r = sel) (exams_df d)) eqn:Hfil; [|done].
  by apply exams_df_ids in Hfil.
Qed.

Lemma delete_exam_ids (d : db) (sel : Z) :
  sel ∉ Exam.id <$> rows (exams (delete_exam d sel)).
Proof.
  simpl. intros (e & Hid & He)%list_elem_of_fmap.
  by apply list_elem_of_filter in He as [Hne _].
Qed.

(** The ids the selectbox offers are the ids of the rows of exams. *)
Lemma exams_df_options (d : db) (i : Z) :
  i ∈ ExamView.id <$> exams_df d <-> i ∈ Exam.id <$> rows (exams d).
Proof.
  rewrite !list_elem_of_fmap. split.
  - intros (row & -> & Hrow).
    destruct (exams_df_elem d row Hrow) as (e & He & Hid & _). by exists e.
  - intros (e & -> & He).
    destruct (exams_df_has d e He) as (row & Hrow & Hid). by exists row.
Qed.

(** X3.  "Ejecutar accion" does not fail at [.iloc[0]]: the selectbox offers
    the ids of the listing of the same run, and for an offered id both
    actions work on a listed row of that id.  "Eliminar" deletes and ends with
    the success notice, whatever unlink did; "Descargar" ends with the link,
    or with the exception raised by reading the file of that row.  After
    "Eliminar", the listing of the next run offers the other ids and no
    longer the deleted one, so no exam can be deleted twice. *)
Theorem ejecutar_accion_listed {fs} `{BlobStore fs} `{BlobReader fs}
    (b64encode : list Byte.byte -> string) (sel : Z) (d : db) (f : fs) :
  sel ∈ ExamView.id <$> exams_df d ->
  (exists row, row ∈ exams_df d ∧ ExamView.id row = sel
     ∧ eliminar_examen sel d f
       = (delete_exam d sel, (unlink f (ExamView.file_name row)).1,
          shown (success "Examen eliminado."))
     ∧ descargar_examen b64encode sel d f
       = match read_file f (ExamView.file_name row) with
         | Raise e => Raise e
         | Ok data =>
             Ok ("[Descargar " +:+ ExamView.original_name row +:+ "]("
                 +:+ "data:application/octet-stream;base64," +:+ b64encode data +:+ ")")
         end)
  ∧ (forall i, i ∈ ExamView.id <$> exams_df (eliminar_examen sel d f).1.1
               <-> i ∈ ExamView.id <$> exams_df d ∧ i ≠ sel).
Proof.
  intros Hsel. split.
  - destruct (filter (fun r => ExamView.id r = sel) (exams_df d)) as [|row rest] eqn:Hfil.
    { apply exams_df_ids in Hfil. by apply exams_df_options in Hsel. }
    assert (row ∈ filter (fun r => ExamView.id r = sel) (exams_df d)) as Hrow
      by (rewrite Hfil; left).
    apply list_elem_of_filter in Hrow as [Hid Hrow].
    exists row. split; [done|]. split; [done|].
    unfold eliminar_examen, descargar_examen. by rewrite Hfil.
  - intros i. apply exams_df_options in Hsel.
    rewrite eliminar_examen_db by done. rewrite !exams_df_options.
    simpl. rewrite !list_elem_of_fmap. split.
    + intros (e & -> & [Hne He]%list_elem_of_filter). split; [by exists e|done].
    + intros [(e & -> & He) Hne]. exists e. split; [done|].
      by apply list_elem_of_filter.
Qed.

Lemma ejecutar_accion_listed_witness :
  (eliminar_examen 1 escuela_examen disco_examen).2
  = shown (success "Examen eliminado.")
  ∧ ExamView.id <$> exams_df (eliminar_examen 1 escuela_examen disco_examen).1.1 = [].
Proof.
  assert (ExamView.id <$> exams_df escuela_examen = [1]) as Hids by (by vm_compute).
  destruct (ejecutar_accion_listed (fun data => pretty (length data)) 1
              escuela_examen disco_examen)
    as [(row & Hrow & Hid & Hdel & _) Hnext].
  { rewrite Hids. left. }
  split.
  - by rewrite Hdel.
  - apply elem_of_nil_inv. intros i Hi. apply Hnext in Hi as [Hin Hne].
    rewrite Hids in Hin. apply list_elem_of_singleton in Hin. exact (Hne Hin).
Defined.

(** ** Importar CSV: repetir, buscar, no tocar *)

Section ImportarMas.
Context {cell : Type} (str : cell -> string) (bind : cell -> result (option string)).

(** A row is settled in a store when its INSERT can only fail there: a name
    that sqlite3 cannot bind, or a code the store has. *)
Lemma import_row_settled (d : db) (r : string -> cell) :
  (exists e, bind (r "first_name") = Raise e) ∨ (exists e, bind (r "last_name") = Raise e)
  ∨ str (r "student_code") ∈ Student.student_code <$> rows (students d) ->
  import_row str bind d r = d.
Proof.
  intros [[e He]|[[e He]|Hin]]; [| |by apply import_row_dup];
    unfold import_row, execute_insert_student; rewrite He; [done|].
  by destruct (bind (r "first_name")).
Qed.

Lemma import_row_codes (d : db) (r r' : string -> cell) :
  str (r "student_code") ∈ Student.student_code <$> rows (students d) ->
  str (r "student_code")
    ∈ Student.student_code <$> rows (students (import_row str bind d r')).
Proof.
  intros Hin. destruct (import_row_prefix str bind d r') as [k ->].
  rewrite fmap_app. apply elem_of_app. by left.
Qed.

(** Once its turn of the loop is over, a row is settled. *)
Lemma import_row_settles (d : db) (r : string -> cell) :
  (exists e, bind (r "first_name") = Raise e) ∨ (exists e, bind (r "last_name") = Raise e)
  ∨ str (r "student_code")
      ∈ Student.student_code <$> rows (students (import_row str bind d r)).
Proof.
  unfold import_row, execute_insert_student, insert_student.
  destruct (bind (r "first_name")) as [fn|e]; [|left; by exists e].
  destruct (bind (r "last_name")) as [ln|e]; [|right; left; by exists e].
  right. right. case_decide as Hin; [done|].
  simpl. rewrite fmap_app. apply elem_of_app. right. by left.
Qed.

Lemma import_rows_settles (l : list (string -> cell)) (d : db) (r : string -> cell) :
  r ∈ l ∨ str (r "student_code") ∈ Student.student_code <$> rows (students d) ->
  (exists e, bind (r "first_name") = Raise e) ∨ (exists e, bind (r "last_name") = Raise e)
  ∨ str (r "student_code")
      ∈ Student.student_code <$> rows (students (foldl (import_row str bind) d l)).
Proof.
  revert d. induction l as [|r0 l IH]; intros d [Hr|Hin].
  - by apply elem_of_nil in Hr.
  - right. by right.
  - apply elem_of_cons in Hr as [->|Hr].
    + destruct (import_row_settles d r0) as [?|[?|Hin]]; [by left|right; by left|].
      apply IH. by right.
    + apply IH. by left.
  - apply IH. right. by apply import_row_codes.
Qed.

Lemma import_rows_settled (l : list (string -> cell)) (d : db) :
  (forall r, r ∈ l ->
     (exists e, bind (r "first_name") = Raise e) ∨ (exists e, bind (r "last_name") = Raise e)
     ∨ str (r "student_code") ∈ Student.student_code <$> rows (students d)) ->
  foldl (import_row str bind) d l = d.
Proof.
  induction l as [|r l IH]; intros Hall; [done|].
  simpl. rewrite import_row_settled by (apply Hall; left).
  apply IH. intros r' Hr'. apply Hall. by right.
Qed.

(** X5.  Importing the same CSV a second time changes nothing and shows the
    same notice: after the first import every row either has its code in the
    store or cannot be bound, so every INSERT of the second import fails and
    is passed over. *)
Theorem importar_csv_idempotent (cfile : option (DataFrame cell)) (d : db) :
  let once := importar_csv str bind cfile d in
  importar_csv str bind cfile once.1 = once.
Proof.
  unfold importar_csv. destruct cfile as [df|]; [|done].
  case_decide; [|done]. simpl. f_equal.
  apply import_rows_settled. intros r Hr. apply import_rows_settles. by left.
Qed.

(** The codes of the table after the loop: those it had, and codes of rows. *)
Lemma import_rows_codes_inv (l : list (string -> cell)) (d : db) (code : string) :
  code ∈ Student.student_code <$> rows (students (foldl (import_row str bind) d l)) ->
  code ∈ Student.student_code <$> rows (students d)
  ∨ exists r, r ∈ l ∧ str (r "student_code") = code.
Proof.
  revert d. induction l as [|r l IH]; intros d Hin; [by left|].
  simpl in Hin. apply IH in Hin as [Hin|(r' & Hr' & Heq)].
  - unfold import_row, execute_insert_student, insert_student in Hin.
    destruct (bind (r "first_name")); [|by left].
    destruct (bind (r "last_name")); [|by left].
    case_decide; [by left|]. simpl in Hin. rewrite fmap_app in Hin.
    apply elem_of_app in Hin as [?| ->%list_elem_of_singleton]; [by left|].
    right. exists r. split; [left|done].
  - right. exists r'. split; [by right|done].
Qed.

(** X6.  After an import of a frame with the required columns into a store
    with unique codes, every row of the frame whose two names sqlite3 can
    bind has exactly one student with its code in the table. *)
Theorem importar_csv_stores_rows (df : DataFrame cell) (d : db) (r : string -> cell)
    (fn ln : option string) :
  required ⊆ list_to_set (columns df) ->
  students_unique d ->
  r ∈ iterrows df ->
  bind (r "first_name") = Ok fn -> bind (r "last_name") = Ok ln ->
  length (filter (fun s => Student.student_code s = str (r "student_code"))
            (rows (students (importar_csv str bind (Some df) d).1))) = 1%nat.
Proof.
  intros Hcols Huniq Hr Hfn Hln. unfold importar_csv. rewrite decide_True by done.
  simpl. apply count_unique_key; [by apply import_rows_unique|].
  destruct (import_rows_settles (iterrows df) d r) as [[e He]|[[e He]|Hin]];
    [by left|congruence|congruence|done].
Qed.

(** X7.  The first row wins.  When the frame holds a row whose code is new
    to the store and to the rows before it, and whose names can be bound,
    the table ends with one student of that code, carrying the names of that
    row and no extra, whatever rows of the same code come later. *)
Theorem importar_csv_first_wins (df : DataFrame cell) (d : db)
    (pre post : list (string -> cell)) (r : string -> cell) (fn ln : option string) :
  required ⊆ list_to_set (columns df) ->
  iterrows df = pre ++ r :: post ->
  students_unique d ->
  str (r "student_code") ∉ Student.student_code <$> rows (students d) ->
  (forall r', r' ∈ pre -> str (r' "student_code") ≠ str (r "student_code")) ->
  bind (r "first_name") = Ok fn -> bind (r "last_name") = Ok ln ->
  exists i,
    filter (fun s => Student.student_code s = str (r "student_code"))
      (rows (students (importar_csv str bind (Some df) d).1))
    = [Student.mk i (str (r "student_code")) fn ln None].
Proof.
  intros Hcols Hrows Huniq Hnew Hpre Hfn Hln.
  unfold importar_csv. rewrite decide_True by done. simpl.
  rewrite Hrows, foldl_app. simpl.
  set (before := foldl (import_row str bind) d pre).
  assert (str (r "student_code") ∉ Student.student_code <$> rows (students before))
    as Hfresh.
  { intros [?|(r' & Hr' & Heq)]%import_rows_codes_inv; [done|]. by apply (Hpre r'). }
  set (s := Student.mk (next_id Student.id (students before))
              (str (r "student_code")) fn ln None).
  assert (rows (students (import_row str bind before r)) = rows (students before) ++ [s])
    as Hstep.
  { unfold import_row, execute_insert_student, insert_student.
    rewrite Hfn, Hln. by rewrite decide_False. }
  exists (next_id Student.id (students before)). fold s.
  apply (filter_unique_key Student.student_code _ s).
  - apply import_rows_unique, import_row_unique. subst before.
    by apply import_rows_unique.
  - destruct (import_rows_prefix str bind post (import_row str bind before r)) as [k ->].
    rewrite Hstep. apply elem_of_app. left. apply elem_of_app. right. left.
Qed.

(** The import writes to students only. *)
Lemma import_rows_others (l : list (string -> cell)) (d : db) :
  let d' := foldl (import_row str bind) d l in
  teachers d' = teachers d ∧ subjects d' = subjects d ∧ classes d' = classes d
  ∧ attendance d' = attendance d ∧ grades d' = grades d ∧ exams d' = exams d.
Proof.
  revert d. induction l as [|r l IH]; intros d; [done|].
  simpl. destruct (IH (import_row str bind d r)) as (-> & -> & -> & -> & -> & ->).
  unfold import_row, execute_insert_student, insert_student.
  destruct (bind (r "first_name")); [|done].
  destruct (bind (r "last_name")); [|done].
  by case_decide.
Qed.

Lemma import_rows_length (l : list (string -> cell)) (d : db) :
  (length (rows (students (foldl (import_row str bind) d l)))
   <= length (rows (students d)) + length l)%nat.
Proof.
  revert d. induction l as [|r l IH]; intros d; [simpl; lia|].
  simpl. etrans; [apply IH|].
  destruct (import_row_rows str bind d r) as [->|(s & -> & _)]; [lia|].
  rewrite length_app. simpl. lia.
Qed.

(** X8.  The import only appends to students: the rows the table had stay
    where they were and as they were, at most one row is added per row of
    the frame, and no other table is written, whatever the file holds. *)
Theorem importar_csv_append_only (cfile : option (DataFrame cell)) (d : db) :
  let d' := (importar_csv str bind cfile d).1 in
  rows (students d) `prefix_of` rows (students d')
  ∧ (length (rows (students d'))
     <= length (rows (students d)) + from_option (fun df => length (iterrows df)) 0 cfile)%nat
  ∧ teachers d' = teachers d ∧ subjects d' = subjects d ∧ classes d' = classes d
  ∧ attendance d' = attendance d ∧ grades d' = grades d ∧ exams d' = exams d.
Proof.
  unfold importar_csv. destruct cfile as [df|]; simpl.
  - case_decide; simpl.
    + split; [apply import_rows_prefix|]. split; [apply import_rows_length|].
      apply import_rows_others.
    + split; [done|]. split; [lia|done].
  - split; [done|]. split; [lia|done].
Qed.
End ImportarMas.

Lemma importar_csv_stores_rows_witness :
  length (filter (fun s => Student.student_code s = "A004")
            (rows (students (importar_csv id text_cell (Some segunda_lista) escuela).1)))
  = 1%nat.
Proof.
  apply (importar_csv_stores_rows id text_cell segunda_lista escuela
           (fila "A004" "Luis" "Diaz") (Some "Luis") (Some "Diaz")).
  - compute_done.
  - unfold students_unique. compute_done.
  - right. right. left.
  - reflexivity.
  - reflexivity.
Defined.

Lemma importar_csv_first_wins_witness :
  exists i,
    filter (fun s => Student.student_code s = "A003")
      (rows (students (importar_csv id text_cell
         (Some (mk_frame ["student_code"; "first_name"; "last_name"]
                  [fila "A003" "Ana" "Ruiz"; fila "A003" "Otra" "Persona"]))
         escuela).1))
    = [Student.mk i "A003" (Some "Ana") (Some "Ruiz") None].
Proof.
  apply (importar_csv_first_wins id text_cell
           (mk_frame ["student_code"; "first_name"; "last_name"]
              [fila "A003" "Ana" "Ruiz"; fila "A003" "Otra" "Persona"])
           escuela [] [fila "A003" "Otra" "Persona"] (fila "A003" "Ana" "Ruiz")).
  - compute_done.
  - reflexivity.
  - unfold students_unique. compute_done.
  - compute_done.
  - intros r' Hr'. by apply elem_of_nil in Hr'.
  - reflexivity.
  - reflexivity.
Defined.

(** ** Guardar asistencia: repetir, no tocar *)

Section SaveMore.
Context (c : Z) (date : string).

(** A turn of the loop whose row is there with the value of the checkbox
    leaves the store as it is. *)
Lemma save_one_noop (d : db) (k : Z) (v : bool) (a : Attendance.row) :
  attendance_pk d ->
  filter (same_key c k date) (rows (attendance d)) = [a] ->
  Attendance.present a = bit v ->
  save_one c date d (k, v) = d.
Proof.
  intros Hpk Hfil Hp. unfold save_one, fetch_attendance_id. simpl. rewrite Hfil. simpl.
  assert (a ∈ rows (attendance d)) as Ha.
  { assert (a ∈ filter (same_key c k date) (rows (attendance d))) as Hin
      by (rewrite Hfil; left).
    by apply list_elem_of_filter in Hin as [_ ?]. }
  unfold update_present, with_attendance.
  assert ((fun a' => if decide (Attendance.id a' = Attendance.id a)
                     then set_present (bit v) a' else a') <$> rows (attendance d)
          = rows (attendance d)) as ->.
  { rewrite <- (list_fmap_id (rows (attendance d))) at 2. apply list_fmap_ext.
    intros i a' Hia'. apply list_elem_of_lookup_2 in Hia'.
    case_decide as Heq; [|done].
    rewrite (NoDup_fmap_eq Attendance.id _ a a' Hpk Ha Hia' Heq).
    destruct a. simpl in Hp. by rewrite <- Hp. }
  by destruct d as [? ? ? ? [? ?] ? ?].
Qed.

Lemma save_items_noop (items : list (Z * bool)) (d : db) :
  attendance_pk d ->
  (forall k v, (k, v) ∈ items ->
     exists a, filter (same_key c k date) (rows (attendance d)) = [a]
       ∧ Attendance.present a = bit v) ->
  save_items c date items d = d.
Proof.
  intros Hpk. induction items as [|[k v] items IH]; intros Hall; [done|].
  change (save_items c date ((k, v) :: items) d)
    with (save_items c date items (save_one c date d (k, v))).
  destruct (Hall k v) as (a & Hfil & Hp); [left|].
  rewrite (save_one_noop d k v a) by done.
  apply IH. intros k' v' Hin. apply Hall. by right.
Qed.

(** A turn of the loop leaves the rows of every other class and of every
    other date as they are, and in place. *)
Lemma save_one_elsewhere (d : db) (it : Z * bool) :
  attendance_pk d ->
  filter (fun a => ¬ (Attendance.class_id a = c ∧ Attendance.date a = date))
    (rows (attendance (save_one c date d it)))
  = filter (fun a => ¬ (Attendance.class_id a = c ∧ Attendance.date a = date))
      (rows (attendance d)).
Proof.
  intros Hpk. unfold save_one.
  destruct (fetch_attendance_id d c it.1 date) as [i|] eqn:Hfetch.
  - apply fetch_some in Hfetch as (a0 & rest & Hfil & <-).
    assert (a0 ∈ filter (same_key c it.1 date) (rows (attendance d))) as Ha0
      by (rewrite Hfil; left).
    apply list_elem_of_filter in Ha0 as [(Hc & _ & Hd) Ha0].
    simpl. rewrite filter_fmap_same by (intros a; by case_decide).
    apply (update_elsewhere d); [done|done| |].
    + apply list_subseteq_filter; apply _.
    + intros [Hne _]%list_elem_of_filter. by apply Hne.
  - simpl. rewrite filter_app, filter_cons_False, filter_nil, app_nil_r; [done|].
    simpl. intros Hne. by apply Hne.
Qed.

Lemma save_items_elsewhere (items : list (Z * bool)) (d : db) :
  attendance_pk d ->
  filter (fun a => ¬ (Attendance.class_id a = c ∧ Attendance.date a = date))
    (rows (attendance (save_items c date items d)))
  = filter (fun a => ¬ (Attendance.class_id a = c ∧ Attendance.date a = date))
      (rows (attendance d)).
Proof.
  revert d. induction items as [|it items IH]; intros d Hpk; [done|].
  change (save_items c date (it :: items) d)
    with (save_items c date items (save_one c date d it)).
  rewrite IH by (by apply save_one_pk). by apply save_one_elsewhere.
Qed.

Lemma save_items_others (items : list (Z * bool)) (d : db) :
  let d' := save_items c date items d in
  students d' = students d ∧ teachers d' = teachers d ∧ subjects d' = subjects d
  ∧ classes d' = classes d ∧ grades d' = grades d ∧ exams d' = exams d.
Proof.
  revert d. induction items as [|it items IH]; intros d; [done|].
  change (save_items c date (it :: items) d)
    with (save_items c date items (save_one c date d it)).
  simpl. destruct (IH (save_one c date d it)) as (-> & -> & -> & -> & -> & ->).
  unfold save_one. by destruct (fetch_attendance_id _ _ _ _).
Qed.
End SaveMore.

(** X9.  Saving the same checkboxes again changes nothing.  In a store where
    attendance.id is a key and no triple has two rows, "Guardar asistencia"
    pressed a second time with the same class, date and checkboxes returns
    the store of the first press, rowids and sqlite_sequence included. *)
Theorem guardar_asistencia_idempotent (d : db) (c : Z) (date : string) (chk : Z -> bool) :
  attendance_pk d -> attendance_unique d ->
  let once := guardar_asistencia c date chk d in
  guardar_asistencia c date chk once.1 = once.
Proof.
  intros Hpk Huniq once. subst once. unfold guardar_asistencia. simpl. f_equal.
  set (d1 := save_items c date (present_dict chk d) d).
  assert (present_dict chk d1 = present_dict chk d) as ->.
  { unfold present_dict, students_df. subst d1. by rewrite save_items_students. }
  destruct (present_dict_spec chk d) as (Hnd & _ & _).
  apply save_items_noop; [by apply save_items_pk|].
  intros k v Hin.
  destruct (save_items_spec c date _ d k v Hpk Huniq Hnd Hin) as (a & Hfil & Hp & _).
  by exists a.
Qed.

Lemma guardar_asistencia_idempotent_witness :
  guardar_asistencia 7 "2024-03-04" (fun sid => bool_decide (sid = 1))
    (guardar_asistencia 7 "2024-03-04" (fun sid => bool_decide (sid = 1)) escuela).1
  = guardar_asistencia 7 "2024-03-04" (fun sid => bool_decide (sid = 1)) escuela.
Proof.
  apply (guardar_asistencia_idempotent escuela 7 "2024-03-04").
  - unfold attendance_pk. compute_done.
  - intros c sid date. vm_compute. lia.
Defined.

(** X10.  "Guardar asistencia" for a class and a date touches nothing else.
    With attendance.id a key, the attendance rows of every other class and of
    every other date are the same afterwards, in the same order, and the six
    other tables are as they were. *)
Theorem guardar_asistencia_elsewhere (d : db) (c : Z) (date : string) (chk : Z -> bool) :
  attendance_pk d ->
  let d' := (guardar_asistencia c date chk d).1 in
  filter (fun a => ¬ (Attendance.class_id a = c ∧ Attendance.date a = date))
    (rows (attendance d'))
  = filter (fun a => ¬ (Attendance.class_id a = c ∧ Attendance.date a = date))
      (rows (attendance d))
  ∧ students d' = students d ∧ teachers d' = teachers d ∧ subjects d' = subjects d
  ∧ classes d' = classes d ∧ grades d' = grades d ∧ exams d' = exams d.
Proof.
  intros Hpk d'. subst d'. simpl. split.
  - by apply save_items_elsewhere.
  - apply save_items_others.
Qed.

Lemma guardar_asistencia_elsewhere_witness :
  filter (fun a => ¬ (Attendance.class_id a = 7 ∧ Attendance.date a = fecha 3))
    (rows (attendance
       (guardar_asistencia 7 (fecha 3) (fun _ => true) escuela_asistencia).1))
  = filter (fun a => ¬ (Attendance.class_id a = 7 ∧ Attendance.date a = fecha 3))
      (rows (attendance escuela_asistencia)).
Proof.
  apply (guardar_asistencia_elsewhere escuela_asistencia 7 (fecha 3) (fun _ => true)).
  unfold attendance_pk. compute_done.
Defined.

(** ** Guardar asistencia twice, on the stores the handlers reach *)

Lemma save_one_notes (c : Z) (date : string) (d : db) (it : Z * bool) :
  notes_null d -> notes_null (save_one c date d it).
Proof.
  intros Hnull. unfold save_one, notes_null in *.
  destruct (fetch_attendance_id d c it.1 date) as [i|]; simpl.
  - apply Forall_fmap. eapply Forall_impl; [exact Hnull|].
    intros a Ha. simpl. by case_decide.
  - apply Forall_app. split; [done|]. by constructor.
Qed.

Lemma save_items_notes (c : Z) (date : string) (items : list (Z * bool)) (d : db) :
  notes_null d -> notes_null (save_items c date items d).
Proof.
  revert d. induction items as [|it items IH]; intros d Hnull; [done|].
  apply IH. by apply save_one_notes.
Qed.

(** What every reachable store has of the attendance table: ids that are
    keys, one row per (class, student, date) at most, and no note. *)
Lemma reachable_attendance (d : db) :
  reachable d -> attendance_pk d ∧ attendance_unique d ∧ notes_null d.
Proof.
  assert (forall d d', attendance d' = attendance d ->
            attendance_pk d ∧ attendance_unique d ∧ notes_null d ->
            attendance_pk d' ∧ attendance_unique d' ∧ notes_null d') as Hframe.
  { intros d0 d' Heq. unfold attendance_pk, attendance_unique, notes_null.
    by rewrite Heq. }
  induction 1 as [|c sid now grade weight desc d Hrange _ IH|c date checked d _ IH
                  |cell str bind cfile d _ IH|name email d _ IH
                  |fs Hfs file up sc cc ts now d f _ IH|fs Hfs sel d f _ IH
                  |name desc d _ IH|subject teacher cname sched d _ IH
                  |unlinked d _ IH].
  - split; [constructor|]. split; [intros c sid date; simpl; lia|constructor].
  - by apply (Hframe d).
  - destruct IH as (Hpk & Huniq & Hnull). split; [by apply save_items_pk|].
    split; [by apply save_items_unique|by apply save_items_notes].
  - apply (Hframe d); [|done].
    unfold importar_csv. destruct cfile as [df|]; [|done].
    case_decide; [|done]. apply import_rows_others.
  - apply (Hframe d); [|done]. apply agregar_profesor_frame.
  - apply (Hframe d); [|done]. apply subir_examen_frame.
  - apply (Hframe d); [|done]. apply eliminar_examen_frame.
  - apply (Hframe d); [|done].
    unfold crear_materia, insert_subject. by repeat case_decide.
  - by apply (Hframe d).
  - destruct unlinked; [|done].
    split; [constructor|]. split; [intros c sid date; simpl; lia|constructor].
Qed.

(** C3.  In every store the handlers can reach, saving attendance twice for
    a class and a date leaves, for every listed student, exactly one row of
    that (class, student, date): the second save inserts no row, it rewrites
    in place the row the first save left, whose id stays the same and whose
    [present] becomes the value of the latest save.  A save carries no note,
    and the row's note is NULL after it, as after every save. *)
Theorem guardar_asistencia_twice (d : db) (c : Z) (date : string)
    (chk1 chk2 : Z -> bool) (s : Student.row) :
  reachable d -> s ∈ rows (students d) ->
  let d1 := (guardar_asistencia c date chk1 d).1 in
  let d2 := (guardar_asistencia c date chk2 d1).1 in
  let triple := same_key c (Student.id s) date in
  exists a1 a2,
    filter triple (rows (attendance d1)) = [a1]
    ∧ filter triple (rows (attendance d2)) = [a2]
    ∧ length (rows (attendance d2)) = length (rows (attendance d1))
    ∧ Attendance.id a2 = Attendance.id a1
    ∧ Attendance.present a2 = bit (chk2 (Student.id s))
    ∧ Attendance.note a2 = None.
Proof.
  intros Hreach Hs d1 d2 triple.
  destruct (reachable_attendance d Hreach) as (Hpk & Huniq & _).
  destruct (save_twice d c date chk1 chk2 s Hpk Huniq Hs)
    as (a1 & a2 & Hfil1 & Hfil2 & Hlen & Hid & Hpres & _).
  exists a1, a2. repeat (split; [done|]).
  assert (reachable d2) as Hreach2 by (by do 2 apply reach_guardar_asistencia).
  destruct (reachable_attendance d2 Hreach2) as (_ & _ & Hnull).
  unfold notes_null in Hnull. rewrite Forall_forall in Hnull. apply Hnull.
  assert (a2 ∈ filter triple (rows (attendance d2))) as Hin.
  { fold d1 d2 triple in Hfil2. rewrite Hfil2. left. }
  by apply list_elem_of_filter in Hin as [_ Hin].
Qed.

Lemma escuela_reachable : reachable escuela.
Proof. exact (reach_importar_csv id text_cell (Some plantilla) init_db reach_init). Defined.

Lemma guardar_asistencia_twice_witness :
  exists a1 a2,
    filter (same_key 7 1 "2024-03-04")
      (rows (attendance (guardar_asistencia 7 "2024-03-04" (fun _ => false) escuela).1))
    = [a1]
    ∧ filter (same_key 7 1 "2024-03-04")
        (rows (attendance
           (guardar_asistencia 7 "2024-03-04" (fun _ => true)
              (guardar_asistencia 7 "2024-03-04" (fun _ => false) escuela).1).1))
      = [a2]
    ∧ Attendance.id a2 = Attendance.id a1
    ∧ Attendance.present a2 = 1
    ∧ Attendance.note a2 = None.
Proof.
  assert (juan ∈ rows (students escuela)) as Hin by (vm_compute; left).
  destruct (guardar_asistencia_twice escuela 7 "2024-03-04" (fun _ => false)
              (fun _ => true) juan escuela_reachable Hin)
    as (a1 & a2 & H1 & H2 & _ & Hid & Hp & Hn).
  exists a1, a2. split; [exact H1|]. split; [exact H2|]. split; [exact Hid|].
  split; [exact Hp|exact Hn].
Defined.

(** ** Examenes: un id borrado no vuelve *)

(** What one handler run does to the exams table: its sqlite_sequence entry
    does not go down, and a row it has afterwards was there before or has an
    id above the entry. *)
Lemma step_exams (y z : db) :
  step y z ->
  sqlite_seq (exams y) <= sqlite_seq (exams z)
  ∧ forall e, e ∈ rows (exams z) ->
      e ∈ rows (exams y) ∨ sqlite_seq (exams y) < Exam.id e.
Proof.
  assert (forall y z, exams z = exams y ->
          sqlite_seq (exams y) <= sqlite_seq (exams z)
          ∧ forall e, e ∈ rows (exams z) ->
              e ∈ rows (exams y) ∨ sqlite_seq (exams y) < Exam.id e) as Hsame.
  { intros y' z' ->. split; [lia|]. intros e He. by left. }
  intros [c sid now grade weight desc d Hrange|c date checked d
          |cell str bind cfile d|name email d
          |fs Hfs file up sc cc ts now d f|fs Hfs sel d f
          |name desc d|subject teacher cname sched d].
  - by apply Hsame.
  - apply Hsame. apply save_items_others.
  - apply Hsame. unfold importar_csv. destruct cfile as [df|]; [|done].
    case_decide; [|done]. apply import_rows_others.
  - apply Hsame.
    destruct (agregar_profesor_cases name email d)
      as [[_ ->]|[(_ & _ & ->)|(_ & _ & ->)]]; done.
  - unfold subir_examen. destruct file as [[fname buffer]|]; [|by apply Hsame].
    destruct (write_file f _ buffer) as [f' [x|]]; [by apply Hsame|].
    simpl. unfold next_id. split; [lia|].
    intros e [He|He]%elem_of_app; [by left|right].
    apply list_elem_of_singleton in He as ->. simpl. lia.
  - unfold eliminar_examen. destruct (head _); [|by apply Hsame].
    simpl. split; [lia|]. intros e [_ He]%list_elem_of_filter. by left.
  - apply Hsame. unfold crear_materia, insert_subject. by repeat case_decide.
  - by apply Hsame.
Qed.

(** X4.  As long as the database file is not deleted ("Borrar BD" starts
    the ids again at 1), a deleted exam id is never given out again.  In a
    table whose ids are at most its sqlite_sequence entry, after "Eliminar"
    of an exam and any number of runs of the other handlers, in any order
    and with any inputs, no row of exams has the deleted id: every row is a
    row that was there before the deletion, other than the deleted one, or
    has an id above every id the table had then. *)
Theorem exam_id_not_reused {fs} `{BlobStore fs} (sel : Z) (d d' : db) (f : fs) :
  table_ok Exam.id (exams d) ->
  sel ∈ Exam.id <$> rows (exams d) ->
  rtc step (eliminar_examen sel d f).1.1 d' ->
  (sel ∉ Exam.id <$> rows (exams d'))
  ∧ forall e, e ∈ rows (exams d') ->
      (e ∈ rows (exams d) ∧ Exam.id e ≠ sel)
      ∨ (forall e0, e0 ∈ rows (exams d) -> Exam.id e0 < Exam.id e).
Proof.
  intros Hok Hin Hsteps.
  rewrite eliminar_examen_db in Hsteps by done.
  assert (sqlite_seq (exams d) <= sqlite_seq (exams d')
          ∧ forall e, e ∈ rows (exams d') ->
              (e ∈ rows (exams d) ∧ Exam.id e ≠ sel)
              ∨ sqlite_seq (exams d) < Exam.id e) as [_ Hrows].
  { revert d' Hsteps. apply rtc_ind_r.
    - simpl. split; [lia|]. intros e [Hne He]%list_elem_of_filter. by left.
    - intros y z _ Hstep [Hseq IH].
      destruct (step_exams y z Hstep) as [Hle Hnew]. split; [lia|].
      intros e He. destruct (Hnew e He) as [Hold|Habove]; [by apply IH|].
      right. lia. }
  destruct Hok as (_ & Hle & _). rewrite Forall_fmap, Forall_forall in Hle.
  assert (forall e, e ∈ rows (exams d') ->
            (e ∈ rows (exams d) ∧ Exam.id e ≠ sel)
            ∨ (forall e0, e0 ∈ rows (exams d) -> Exam.id e0 < Exam.id e)) as Hall.
  { intros e He. destruct (Hrows e He) as [Hold|Habove]; [by left|right].
    intros e0 He0. specialize (Hle e0 He0). simpl in Hle. lia. }
  split; [|done].
  intros (e & -> & He)%list_elem_of_fmap.
  destruct (Hall e He) as [[_ Hne]|Habove]; [done|].
  apply list_elem_of_fmap in Hin as (e0 & Heq & He0).
  specialize (Habove e0 He0). lia.
Qed.

Lemma exam_id_not_reused_witness :
  1 ∉ Exam.id <$> rows (exams
    (subir_examen (Some ("final.pdf", parcial_pdf)) "Prof. Perez" ninguna ninguna
       "20240611120000" "2024-06-11T12:00:00.000000"
       (crear_materia "Historia" "" (eliminar_examen 1 escuela_examen disco_examen).1.1).1
       (eliminar_examen 1 escuela_examen disco_examen).1.2).1.1).
Proof.
  assert (table_ok Exam.id (exams escuela_examen)) as Hok.
  { split; [compute_done|]. split; [compute_done|by vm_compute]. }
  refine (proj1 (exam_id_not_reused 1 escuela_examen _ disco_examen Hok
                   ltac:(compute_done) _)).
  eapply rtc_l; [apply (step_crear_materia "Historia" "")|].
  apply rtc_once.
  exact (step_subir_examen (Some ("final.pdf", parcial_pdf)) "Prof. Perez" ninguna ninguna
           "20240611120000" "2024-06-11T12:00:00.000000" _
           (eliminar_examen 1 escuela_examen disco_examen).1.2).
Defined.

(** ** Notas: promedios de los demas, cotas, lista de notas *)

Lemma filter_fmap_comm {A B} (f : A -> B) (P : B -> Prop) `{!forall y, Decision (P y)}
    (l : list A) :
  filter P (f <$> l) = f <$> filter (fun x => P (f x)) l.
Proof.
  induction l as [|a l IH]; [done|].
  rewrite fmap_cons, !filter_cons, IH. by destruct (decide (P (f a))).
Qed.

(** The group of one key: the rows of that key, if there are any. *)
Lemma group_by_filter_key {A K} `{!EqDecision K} (key : A -> K) (l : list A) (k : K) :
  filter (fun g => g.1 = k) (group_by key l)
  = if decide (k ∈ key <$> l) then [(k, filter (fun x => key x = k) l)] else [].
Proof.
  case_decide as Hk.
  - apply (filter_unique_key fst (group_by key l) (k, filter (fun x => key x = k) l)).
    + apply NoDup_group_by.
    + by apply elem_of_group_by.
  - apply filter_none. intros [k' grp] [Hk' _]%elem_of_group_by. simpl. by intros ->.
Qed.

Lemma avg_df_of_key (d : db) (c k : Z) :
  filter (fun r => Avg.id r = k) (avg_df d c)
  = if decide (k ∈ (fun j : Grade.row * Student.row => Student.id j.2) <$> grades_join d c)
    then [avg_row (k, filter (fun j => Student.id j.2 = k) (grades_join d c))]
    else [].
Proof.
  unfold avg_df. rewrite filter_fmap_comm. simpl.
  rewrite (group_by_filter_key (fun j : Grade.row * Student.row => Student.id j.2)).
  by case_decide.
Qed.

Lemma join_students_app {A} (sid : A -> Z) (l1 l2 : list A) (ss : list Student.row) :
  join_students sid (l1 ++ l2) ss = join_students sid l1 ss ++ join_students sid l2 ss.
Proof. unfold join_students. apply bind_app. Qed.

(** X11.  Saving a note for a student in a class leaves the weighted average
    of every other student of that class, and every average of every other
    class, exactly as it was. *)
Theorem guardar_nota_other_averages (c sid : Z) (now : string) (grade weight : Q)
    (desc : string) (d : db) (c' k : Z) :
  c' ≠ c ∨ k ≠ sid ->
  filter (fun r => Avg.id r = k)
    (avg_df (guardar_nota c sid now grade weight desc d).1 c')
  = filter (fun r => Avg.id r = k) (avg_df d c').
Proof.
  intros Hother. rewrite !avg_df_of_key.
  set (g := Grade.mk (next_id Grade.id (grades d)) c sid now grade weight desc).
  assert (grades_join (guardar_nota c sid now grade weight desc d).1 c'
          = grades_join d c'
            ++ join_students Grade.student_id
                 (filter (fun g => Grade.class_id g = c') [g]) (rows (students d))) as ->.
  { unfold grades_join. simpl. by rewrite filter_app, join_students_app. }
  set (extra := join_students Grade.student_id
                  (filter (fun g => Grade.class_id g = c') [g]) (rows (students d))).
  assert (forall j, j ∈ extra -> Student.id j.2 ≠ k) as Hextra.
  { intros j Hj Hid. subst extra. apply elem_of_join in Hj as (Hg & _ & Heq).
    apply list_elem_of_filter in Hg as [Hc Hg].
    apply list_elem_of_singleton in Hg. rewrite Hg in Hc, Heq. simpl in Hc, Heq.
    destruct Hother as [?|?]; congruence. }
  rewrite filter_app, (filter_none _ extra), app_nil_r by done.
  assert (k ∈ (fun j : Grade.row * Student.row => Student.id j.2) <$> (grades_join d c' ++ extra)
          <-> k ∈ (fun j : Grade.row * Student.row => Student.id j.2) <$> grades_join d c')
    as Hiff.
  { rewrite fmap_app, elem_of_app. split; [|by left].
    intros [?|(j & -> & Hj)%list_elem_of_fmap]; [done|]. by destruct (Hextra j Hj). }
  destruct (decide (k ∈ _ <$> (grades_join d c' ++ extra))) as [Hin|Hnot],
    (decide (k ∈ _ <$> grades_join d c')) as [Hin'|Hnot']; try done.
  - by apply Hiff in Hin.
  - by apply Hiff in Hin'.
Qed.

Lemma guardar_nota_other_averages_witness :
  filter (fun r => Avg.id r = 1)
    (avg_df (guardar_nota 7 2 "2024-03-15T11:00:00" 55 2 "Tarea" escuela_notas).1 7)
  = filter (fun r => Avg.id r = 1) (avg_df escuela_notas 7).
Proof.
  apply (guardar_nota_other_averages 7 2 "2024-03-15T11:00:00" 55 2 "Tarea"
           escuela_notas 7 1).
  right. lia.
Defined.





(** With students.id a key, the join keeps the rows whose student exists,
    each once. *)
Lemma join_students_fst {A} (sid : A -> Z) (l : list A) (ss : list Student.row) :
  NoDup (Student.id <$> ss) ->
  (join_students sid l ss).*1 = filter (fun a => sid a ∈ Student.id <$> ss) l.
Proof.
  intros Hpk. unfold join_students. induction l as [|a l IH]; [done|].
  rewrite bind_cons, fmap_app, IH, filter_cons. clear IH.
  destruct (decide (sid a ∈ Student.id <$> ss)) as [Hin|Hnot].
  - apply list_elem_of_fmap in Hin as (s & Hid & Hs).
    rewrite (filter_ext_in _ (fun s' => Student.id s' = Student.id s))
      by (intros; rewrite Hid; done).
    by rewrite (filter_unique_key Student.id ss s Hpk Hs).
  - rewrite filter_none; [done|]. intros s Hs Hid. apply Hnot.
    rewrite Hid. by apply list_elem_of_fmap_2.
Qed.

(** X13.  The list of grades and the averages go together: one is empty
    exactly when the other is, so the check [not avg_df.empty] inside
    [not grades_df.empty] never fails.  With students.id a key, the grades
    listed are the grade rows of the class whose student is in students, each
    once; a grade of a missing student is neither listed nor averaged. *)
Theorem grades_df_listing (d : db) (c : Z) :
  (grades_df d c = [] <-> avg_df d c = [])
  ∧ (students_pk d ->
     GradeView.id <$> grades_df d c
     ≡ₚ Grade.id <$> filter (fun g => Grade.student_id g ∈ Student.id <$> rows (students d))
                       (filter (fun g => Grade.class_id g = c) (rows (grades d))))
  ∧ (students_pk d ->
     forall r, r ∈ avg_df d c -> Avg.id r ∈ Student.id <$> rows (students d)).
Proof.
  split; [|split].
  - unfold grades_df, avg_df, group_by.
    rewrite <- Permutation_nil_r, merge_sort_Permutation, Permutation_nil_r.
    split.
    + intros ->%fmap_nil_inv. done.
    + intros Hnil%fmap_nil_inv%fmap_nil_inv.
      destruct (grades_join d c) as [|j J]; [done|].
      assert (Student.id j.2 ∈ remove_dups ((fun j : Grade.row * Student.row =>
                Student.id j.2) <$> j :: J)) as Hin
        by (rewrite elem_of_remove_dups, fmap_cons; left).
      rewrite Hnil in Hin. by apply elem_of_nil in Hin.
  - intros Hpk. unfold grades_df. rewrite merge_sort_Permutation.
    rewrite <- list_fmap_compose.
    rewrite <- (join_students_fst Grade.student_id _ _ Hpk).
    by rewrite <- list_fmap_compose.
  - intros Hpk r Hr.
    assert (Avg.id r ∈ Avg.id <$> avg_df d c) as Hid by (by apply list_elem_of_fmap_2).
    rewrite avg_df_ids, group_by_keys, elem_of_remove_dups in Hid.
    apply list_elem_of_fmap in Hid as (j & -> & Hj).
    apply elem_of_join in Hj as (_ & Hs & _). by apply list_elem_of_fmap_2.
Qed.

Lemma grades_df_listing_witness :
  GradeView.id <$> grades_df escuela_notas 7 ≡ₚ [1; 2; 3]
  ∧ forall r, r ∈ avg_df escuela_notas 7 -> Avg.id r ∈ [1; 2].
Proof.
  assert (students_pk escuela_notas) as Hpk by (unfold students_pk; compute_done).
  destruct (grades_df_listing escuela_notas 7) as (_ & Hlist & Havg).
  split; [exact (Hlist Hpk)|exact (Havg Hpk)].
Defined.

(** ** Materias, y las listas con LEFT JOIN *)

(** What "Crear materia" does, by cases on the stripped name. *)
Lemma crear_materia_cases (name desc : string) (d : db) :
  (strip name = ""
   ∧ crear_materia name desc d = (d, shown (warning "Ingrese un nombre válido")))
  ∨ (strip name ≠ "" ∧ strip name ∈ Subject.name <$> rows (subjects d)
     ∧ crear_materia name desc d
       = (d, shown (error "Ya existe una materia con ese nombre")))
  ∨ (strip name ≠ "" ∧ (strip name ∉ Subject.name <$> rows (subjects d))
     ∧ crear_materia name desc d
       = (with_subjects d
            (insert_row Subject.id (subjects d)
               (fun i => Subject.mk i (strip name) (strip desc))),
          shown (success "Materia creada"))).
Proof.
  unfold crear_materia, insert_subject.
  destruct (decide (strip name = "")) as [Hempty|Hname]; [by left|]. right.
  destruct (decide (strip name ∈ Subject.name <$> rows (subjects d))) as [Hin|Hnew].
  - by left.
  - by right.
Qed.

(** X14.  "Crear materia" shows "Ya existe una materia con ese nombre"
    exactly when the stripped name is not blank and is the name of a subject;
    the store changes only when "Materia creada" is shown, and then the
    stripped name is stored; subjects.name stays unique. *)
Theorem crear_materia_duplicate (name desc : string) (d : db) :
  ((crear_materia name desc d).2 = shown (error "Ya existe una materia con ese nombre")
   <-> strip name ≠ "" ∧ strip name ∈ Subject.name <$> rows (subjects d))
  ∧ ((crear_materia name desc d).2 ≠ shown (success "Materia creada") ->
     (crear_materia name desc d).1 = d)
  ∧ ((crear_materia name desc d).2 = shown (success "Materia creada") ->
     Subject.name <$> rows (subjects (crear_materia name desc d).1)
     = (Subject.name <$> rows (subjects d)) ++ [strip name])
  ∧ (subjects_unique d -> subjects_unique (crear_materia name desc d).1).
Proof.
  destruct (crear_materia_cases name desc d)
    as [[Hblank ->]|[(Hname & Hin & ->)|(Hname & Hnew & ->)]]; simpl.
  - split; [split; [done|by intros [? _]]|]. done.
  - split; [done|]. done.
  - split; [split; [done|by intros [_ ?]]|]. split; [done|].
    split; [intros _; by rewrite fmap_app|].
    intros Huniq. by apply NoDup_fmap_snoc.
Qed.

Lemma crear_materia_duplicate_witness :
  let d1 := (crear_materia "Historia" "Siglo XX" init_db).1 in
  crear_materia (" Historia" +:+ nbsp) "otra" d1
  = (d1, shown (error "Ya existe una materia con ese nombre"))
  ∧ Subject.name <$> rows (subjects d1) = ["Historia"]
  ∧ subjects_unique d1.
Proof.
  intros d1.
  destruct (crear_materia_duplicate (" Historia" +:+ nbsp) "otra" d1)
    as (Herr & Hsame & _ & _).
  destruct (crear_materia_duplicate "Historia" "Siglo XX" init_db) as (_ & _ & Hnew & Huniq).
  split; [|split].
  - apply injective_projections.
    + apply Hsame. by vm_compute.
    + apply Herr. split; [by vm_compute|compute_done].
  - exact (Hnew eq_refl).
  - apply Huniq. constructor.
Defined.

(** With a key on the right, a LEFT JOIN pairs a row with exactly one thing:
    the row it refers to, or NULL when it refers to none. *)
Lemma left_join_key {B} (key : B -> Z) (ref : option Z) (bs : list B) :
  NoDup (key <$> bs) ->
  exists o, left_join (fun b => ref = Some (key b)) bs = [o]
    ∧ (o = None <-> forall b, b ∈ bs -> ref ≠ Some (key b))
    ∧ (forall b, o = Some b -> b ∈ bs ∧ ref = Some (key b)).
Proof.
  intros Hpk. unfold left_join.
  destruct (filter (fun b => ref = Some (key b)) bs) as [|b rest] eqn:Hfil.
  - exists None. split; [done|]. split; [|done]. split; [|done].
    intros _ b Hb Href. by apply (filter_nil_not_elem_of _ _ b Hfil).
  - assert (b ∈ filter (fun b => ref = Some (key b)) bs) as Hb by (rewrite Hfil; left).
    apply list_elem_of_filter in Hb as [Href Hb].
    rewrite (filter_ext_in _ (fun b' => key b' = key b)) in Hfil
      by (intros b' _; rewrite Href; split; congruence).
    rewrite (filter_unique_key key bs b Hpk Hb) in Hfil. injection Hfil as <-.
    exists (Some b). split; [done|]. split.
    + split; [done|]. intros Hall. by destruct (Hall b Hb).
    + by intros b' [= <-].
Qed.

(** X15.  The list of exams, with subjects.id and classes.id keys: every
    row of exams is listed exactly once, the most recent upload first; the
    subject column is the name of the subject the exam refers to, and NULL
    exactly when it refers to none that exists (likewise the class column);
    no exam is dropped for a missing reference. *)
Theorem exams_df_listing (d : db) :
  NoDup (Subject.id <$> rows (subjects d)) ->
  NoDup (Class.id <$> rows (classes d)) ->
  ExamView.id <$> exams_df d ≡ₚ Exam.id <$> rows (exams d)
  ∧ Sorted newest_first (exams_df d)
  ∧ forall row, row ∈ exams_df d ->
      exists e, e ∈ rows (exams d)
        ∧ ExamView.id row = Exam.id e
        ∧ ExamView.file_name row = Exam.file_name e
        ∧ ExamView.original_name row = Exam.original_name e
        ∧ (ExamView.subject row = None
           <-> forall s, s ∈ rows (subjects d) -> Exam.subject_id e ≠ Some (Subject.id s))
        ∧ (forall n, ExamView.subject row = Some n ->
             exists s, s ∈ rows (subjects d) ∧ Exam.subject_id e = Some (Subject.id s)
               ∧ Subject.name s = n)
        ∧ (ExamView.class row = None
           <-> forall cl, cl ∈ rows (classes d) -> Exam.class_id e ≠ Some (Class.id cl))
        ∧ (forall n, ExamView.class row = Some n ->
             exists cl, cl ∈ rows (classes d) ∧ Exam.class_id e = Some (Class.id cl)
               ∧ Class.class_name cl = n).
Proof.
  intros Hsub Hcla. unfold exams_df. split; [|split].
  - rewrite merge_sort_Permutation.
    induction (rows (exams d)) as [|e es IH]; [done|].
    rewrite bind_cons, fmap_app, IH, fmap_cons.
    destruct (left_join_key Subject.id (Exam.subject_id e) _ Hsub) as (s & -> & _).
    destruct (left_join_key Class.id (Exam.class_id e) _ Hcla) as (cl & -> & _).
    done.
  - apply Sorted_merge_sort. intros x y. apply String.leb_total.
  - intros row. rewrite merge_sort_Permutation.
    intros (e & Hrow & He)%list_elem_of_bind.
    destruct (left_join_key Subject.id (Exam.subject_id e) _ Hsub) as (s & Hs & Hs0 & Hs1).
    destruct (left_join_key Class.id (Exam.class_id e) _ Hcla) as (cl & Hcl & Hc0 & Hc1).
    rewrite Hs, Hcl in Hrow. simpl in Hrow.
    apply list_elem_of_singleton in Hrow as ->. simpl.
    exists e. repeat (split; [done|]). split; [|split; [|split]].
    + rewrite <- Hs0. by destruct s.
    + intros n Hn. destruct s as [s|]; [|done]. injection Hn as <-.
      exists s. destruct (Hs1 s eq_refl). done.
    + rewrite <- Hc0. by destruct cl.
    + intros n Hn. destruct cl as [cl|]; [|done]. injection Hn as <-.
      exists cl. destruct (Hc1 cl eq_refl). done.
Qed.

Lemma exams_df_listing_witness :
  ExamView.id <$> exams_df escuela_examen ≡ₚ [1]
  ∧ Sorted newest_first (exams_df escuela_examen).
Proof.
  destruct (exams_df_listing escuela_examen ltac:(compute_done) ltac:(compute_done))
    as (Hids & Hsorted & _).
  split; [exact Hids|exact Hsorted].
Defined.

(** X16.  The list of classes, with subjects.id and teachers.id keys: every
    class is listed exactly once and in table order, with the name of its
    subject and of its teacher, or NULL for a reference that is absent or
    points to nothing.  So a class just created by "Crear clase" is the last
    row of the list, whatever was chosen in the two selectboxes. *)
Theorem clases_df_listing (d : db) :
  NoDup (Subject.id <$> rows (subjects d)) ->
  NoDup (Teacher.id <$> rows (teachers d)) ->
  ClassView.id <$> clases_df d = Class.id <$> rows (classes d)
  ∧ (forall row, row ∈ clases_df d ->
       exists cl, cl ∈ rows (classes d)
         ∧ ClassView.id row = Class.id cl
         ∧ ClassView.class_name row = Class.class_name cl
         ∧ ClassView.schedule row = Class.schedule cl
         ∧ (ClassView.subject row = None
            <-> forall s, s ∈ rows (subjects d) -> Class.subject_id cl ≠ Some (Subject.id s))
         ∧ (forall n, ClassView.subject row = Some n ->
              exists s, s ∈ rows (subjects d) ∧ Class.subject_id cl = Some (Subject.id s)
                ∧ Subject.name s = n)
         ∧ (ClassView.teacher row = None
            <-> forall t, t ∈ rows (teachers d) -> Class.teacher_id cl ≠ Some (Teacher.id t))
         ∧ (forall n, ClassView.teacher row = Some n ->
              exists t, t ∈ rows (teachers d) ∧ Class.teacher_id cl = Some (Teacher.id t)
                ∧ Teacher.name t = n))
  ∧ (forall subject teacher cname sched,
       exists row,
         clases_df (crear_clase subject teacher cname sched d).1 = clases_df d ++ [row]
         ∧ ClassView.id row = next_id Class.id (classes d)
         ∧ ClassView.class_name row = cname ∧ ClassView.schedule row = sched).
Proof.
  intros Hsub Htea.
  assert (forall cl : Class.row, exists row,
            (s ← left_join (fun s => Class.subject_id cl = Some (Subject.id s))
                   (rows (subjects d));
             t ← left_join (fun t => Class.teacher_id cl = Some (Teacher.id t))
                   (rows (teachers d));
             [ClassView.mk (Class.id cl) (Class.class_name cl) (Subject.name <$> s)
                (Teacher.name <$> t) (Class.schedule cl)]) = [row]
            ∧ ClassView.id row = Class.id cl
            ∧ ClassView.class_name row = Class.class_name cl
            ∧ ClassView.schedule row = Class.schedule cl) as Hone.
  { intros cl.
    destruct (left_join_key Subject.id (Class.subject_id cl) _ Hsub) as (s & -> & _).
    destruct (left_join_key Teacher.id (Class.teacher_id cl) _ Htea) as (t & -> & _).
    by eexists. }
  split; [|split].
  - unfold clases_df. induction (rows (classes d)) as [|cl cls IH]; [done|].
    rewrite bind_cons, fmap_app, IH, fmap_cons.
    destruct (Hone cl) as (row & -> & <- & _). done.
  - intros row (cl & Hrow & Hcl)%list_elem_of_bind.
    destruct (left_join_key Subject.id (Class.subject_id cl) _ Hsub) as (s & Hs & Hs0 & Hs1).
    destruct (left_join_key Teacher.id (Class.teacher_id cl) _ Htea) as (t & Ht & Ht0 & Ht1).
    rewrite Hs, Ht in Hrow. simpl in Hrow.
    apply list_elem_of_singleton in Hrow as ->. simpl.
    exists cl. repeat (split; [done|]). split; [|split; [|split]].
    + rewrite <- Hs0. by destruct s.
    + intros n Hn. destruct s as [s|]; [|done]. injection Hn as <-.
      exists s. destruct (Hs1 s eq_refl). done.
    + rewrite <- Ht0. by destruct t.
    + intros n Hn. destruct t as [t|]; [|done]. injection Hn as <-.
      exists t. destruct (Ht1 t eq_refl). done.
  - intros subject teacher cname sched. unfold clases_df, crear_clase. simpl.
    rewrite bind_app, bind_singleton.
    destruct (Hone (Class.mk (next_id Class.id (classes d)) (fst <$> subject)
                      (fst <$> teacher) cname sched)) as (row & -> & ? & ? & ?).
    by exists row.
Qed.

Lemma clases_df_listing_witness :
  let d := (crear_materia "Historia" "" escuela).1 in
  exists row,
    clases_df (crear_clase (Some (1, "Historia")) None "3er Año - A" "Lunes 8:00" d).1
    = clases_df d ++ [row]
    ∧ ClassView.id row = 1
    ∧ ClassView.class_name row = "3er Año - A" ∧ ClassView.schedule row = "Lunes 8:00".
Proof.
  intros d.
  destruct (clases_df_listing d ltac:(compute_done) ltac:(compute_done))
    as (_ & _ & Hnew).
  exact (Hnew (Some (1, "Historia")) None "3er Año - A" "Lunes 8:00").
Defined.

(** ** Examenes: subir y descargar *)



Section Descargar.
Context (b64encode : list Byte.byte -> string).





End Descargar.



(** ** The aggregations as computed in binary64 *)

Lemma of_Q_comp (p q : Q) : (p == q)%Q -> Binary64.of_Q p = Binary64.of_Q q.
Proof. intros Hpq. unfold Binary64.of_Q. by rewrite (Qred_complete p q Hpq). Qed.

Lemma avg_df64_ids (d : db) (c : Z) :
  Avg64.id <$> avg_df64 d c = (group_by (fun j => Student.id j.2) (grades_join d c)).*1.
Proof. unfold avg_df64. by rewrite <- list_fmap_compose. Qed.

(** The binary64 frame has the rows of the frame read over the rationals:
    the same students, in the same order, under the same names. *)
Lemma avg_df64_rows (d : db) (c : Z) :
  (fun r => (Avg64.id r, Avg64.first_name r, Avg64.last_name r)) <$> avg_df64 d c
  = (fun r => (Avg.id r, Avg.first_name r, Avg.last_name r)) <$> avg_df d c.
Proof. unfold avg_df64, avg_df. by rewrite <- !list_fmap_compose. Qed.

(** The row of a student with entries in the class, as computed. *)
Lemma avg_df64_row (d : db) (c : Z) (s : Student.row) :
  students_pk d -> s ∈ rows (students d) ->
  let es := grade_entries d c (Student.id s) in
  let suma :=
    Binary64.sum ((fun g => Binary64.mul (Binary64.of_Q (Grade.grade g))
                                         (Binary64.of_Q (Grade.weight g))) <$> es) in
  let pesos := Binary64.sum ((fun g => Binary64.of_Q (Grade.weight g)) <$> es) in
  es ≠ [] ->
  exists r, r ∈ avg_df64 d c ∧ Avg64.id r = Student.id s
    ∧ filter (fun r => Avg64.id r = Student.id s) (avg_df64 d c) = [r]
    ∧ Avg64.first_name r = Student.first_name s
    ∧ Avg64.last_name r = Student.last_name s
    ∧ Avg64.suma r = suma ∧ Avg64.pesos r = pesos
    ∧ Avg64.promedio r = Binary64.round 2 (Binary64.div suma pesos).
Proof.
  intros Hpk Hs es suma pesos Hne.
  pose proof (proj2 (grades_group_key d c s Hs) Hne) as Hkey.
  set (grp := filter (fun j : Grade.row * Student.row => Student.id j.2 = Student.id s)
                (grades_join d c)).
  assert (avg_row64 (Student.id s, grp) ∈ avg_df64 d c) as Hr.
  { apply list_elem_of_fmap_2. by apply elem_of_group_by. }
  exists (avg_row64 (Student.id s, grp)).
  split; [exact Hr|]. split; [done|]. split.
  { apply (filter_unique_key Avg64.id (avg_df64 d c) (avg_row64 (Student.id s, grp)));
      [|done].
    rewrite avg_df64_ids. apply NoDup_group_by. }
  unfold avg_row64. cbn [fst snd Avg64.first_name Avg64.last_name Avg64.suma
                          Avg64.pesos Avg64.promedio]. subst grp.
  rewrite (grades_group d c s Hpk Hs). fold es.
  rewrite <- !list_fmap_compose.
  by destruct es.
Qed.



Lemma asistencias_reachable (c : Z) (checked : nat -> Z -> bool) (n : nat) (d : db) :
  reachable d -> reachable (asistencias c checked n d).
Proof.
  intros Hd. unfold asistencias. induction n as [|n IH]; [done|].
  rewrite seq_S, foldl_app. simpl. by apply reach_guardar_asistencia.
Qed.


(** The summary in binary64 has the rows of the summary read over the
    rationals, with the same counts. *)
Lemma att_df64_rows (d : db) (c : Z) :
  att_df64 d c = att_row_as_computed <$> att_df d c.
Proof. unfold att_df64, att_df. by rewrite <- list_fmap_compose. Qed.

(** C4 (amended).  With students.id a primary key and attendance.present
    holding 0 or 1, a student with at least one record in the class has
    exactly one row in the summary, carrying the number of records with
    present = 1, the number of records, and presents / total * 100 rounded to
    one decimal as the code computes them: the quotient of the two counts as
    a float64 division, the product by 100 in float64, and the rounding as
    numpy's round(1), that is rint(x * 10) / 10 in float64.  A student with no
    record in the class has no row.  Three records with present = 1 and one
    with present = 0, in any order, give presents 3, total 4, percent 75.0. *)
Theorem att_df64_summary (d : db) (c : Z) (s : Student.row) :
  students_pk d -> present_is_bit d -> s ∈ rows (students d) ->
  let recs := attendance_records d c (Student.id s) in
  (recs ≠ [] ->
   exists r, filter (fun r => Att64.student_id r = Student.id s) (att_df64 d c) = [r]
     ∧ Att64.first_name r = Student.first_name s
     ∧ Att64.last_name r = Student.last_name s
     ∧ Att64.presents r
       = Z.of_nat (length (filter (fun a => Attendance.present a = 1) recs))
     ∧ Att64.total r = Z.of_nat (length recs)
     ∧ Att64.percent r
       = Binary64.round 1
           (Binary64.mul
              (Binary64.div (Binary64.of_Z (Att64.presents r))
                            (Binary64.of_Z (Att64.total r)))
              (Binary64.of_Z 100)))
  ∧ (recs = [] -> filter (fun r => Att64.student_id r = Student.id s) (att_df64 d c) = [])
  ∧ (Attendance.present <$> recs ≡ₚ [1; 1; 1; 0] ->
     exists r q, r ∈ att_df64 d c ∧ Att64.student_id r = Student.id s
       ∧ Att64.presents r = 3 ∧ Att64.total r = 4
       ∧ Binary64.to_Q (Att64.percent r) = Some q ∧ (q == 75)%Q).
Proof.
  intros Hpk Hbit Hs recs.
  pose proof (att_df_row d c s Hpk Hs) as Hrow. simpl in Hrow. fold recs in Hrow.
  assert (forall k, filter (fun r => Att64.student_id r = k) (att_df64 d c)
                    = att_row_as_computed
                        <$> filter (fun r => Att.student_id r = k) (att_df d c)) as Hfilter.
  { intros k. rewrite att_df64_rows. apply filter_fmap_comm. }
  split; [|split].
  - intros Hne.
    destruct (Hrow Hne) as (r & _ & _ & Hfil & Hfn & Hln & Hp & Ht & _).
    exists (att_row_as_computed r). rewrite Hfilter, Hfil.
    split; [done|]. split; [done|]. split; [done|].
    split; [simpl; rewrite Hp; by apply sum_present_count, attendance_records_bits|].
    by split.
  - intros Hnil. rewrite Hfilter.
    assert (filter (fun r => Att.student_id r = Student.id s) (att_df d c) = [])
      as ->; [|done].
    apply filter_none. intros r Hr Hid.
    apply (att_df_student d c s r Hpk Hs Hr) in Hid.
    assert (att_row_key r ∈ att_row_key <$> att_df d c) as Hk
      by (by apply list_elem_of_fmap_2).
    rewrite att_df_keys, group_by_keys, elem_of_remove_dups, Hid in Hk.
    by apply (att_group_key d c s Hpk Hs) in Hk.
  - intros Hperm.
    assert (recs ≠ []) as Hne.
    { intros Hnil. rewrite Hnil in Hperm. by apply Permutation_nil_cons in Hperm. }
    destruct (Hrow Hne) as (r & Hr & Hid & _ & _ & _ & Hp & Ht & _).
    exists (att_row_as_computed r). eexists.
    split; [rewrite att_df64_rows; by apply list_elem_of_fmap_2|].
    split; [done|].
    assert (Att.presents r = 3) as Hp3
      by (rewrite Hp, (sum_Z_Permutation _ _ Hperm); done).
    assert (Att.total r = 4) as Ht4.
    { rewrite Ht, <- (length_fmap Attendance.present), (Permutation_length Hperm). done. }
    split; [exact Hp3|]. split; [exact Ht4|].
    unfold att_row_as_computed. cbn [Att64.percent]. rewrite Hp3, Ht4.
    split; by vm_compute.
Qed.

Lemma att_df64_summary_witness :
  (exists r, filter (fun r => Att64.student_id r = 1) (att_df64 escuela_asistencia 7) = [r]
     ∧ Att64.presents r = 3 ∧ Att64.total r = 4
     ∧ Att64.percent r = Binary64.of_Z 75)
  ∧ filter (fun r => Att64.student_id r = 1) (att_df64 escuela_asistencia 8) = []
  ∧ (exists r q, r ∈ att_df64 escuela_asistencia 7 ∧ Att64.student_id r = 1
       ∧ Att64.presents r = 3 ∧ Att64.total r = 4
       ∧ Binary64.to_Q (Att64.percent r) = Some q ∧ (q == 75)%Q).
Proof.
  assert (students_pk escuela_asistencia) as Hpk by (unfold students_pk; compute_done).
  assert (juan ∈ rows (students escuela_asistencia)) as Hin by (vm_compute; left).
  destruct (att_df64_summary escuela_asistencia 7 juan Hpk escuela_asistencia_bits Hin)
    as (Hrow & _ & Hex).
  destruct (att_df64_summary escuela_asistencia 8 juan Hpk escuela_asistencia_bits Hin)
    as (_ & Hnone & _).
  split; [|split].
  - destruct Hrow as (r & Hfil & _ & _ & Hp & Ht & Hpct); [by vm_compute|].
    exists r. split; [done|].
    assert (Att64.presents r = 3) as Hp3 by (rewrite Hp; reflexivity).
    assert (Att64.total r = 4) as Ht4 by (rewrite Ht; reflexivity).
    split; [done|]. split; [done|]. rewrite Hpct, Hp3, Ht4. by vm_compute.
  - apply Hnone. reflexivity.
  - apply Hex. reflexivity.
Defined.

(** C4 as stated fails.  After eighty days of class 7 with Juan present on
    23 of them, his presents / total * 100 is 28.75, which rounds to
    28.8, with ties to even as with ties up.  The code returns 28.7: the
    float64 quotient 23 / 80 times 100 is 28.749999999999996. *)
Lemma att_df64_not_exactly_rounded :
  reachable escuela_ochenta
  ∧ filter (fun r => Att64.student_id r = 1) (att_df64 escuela_ochenta 7)
    = [Att64.mk 1 (Some "Juan") (Some "Perez") 23 80 (Binary64.of_Q 28.7)]
  ∧ (round_q 1 (23 / 80 * 100) == 28.8)%Q
  ∧ Binary64.of_Q 28.7 ≠ Binary64.of_Q 28.8.
Proof.
  split.
  { apply asistencias_reachable.
    exact (reach_importar_csv id text_cell (Some plantilla) init_db reach_init). }
  split; [by vm_compute|]. split; by vm_compute.
Qed.

(** ** Zero weights in binary64 *)

Lemma of_Q_zero (q : Q) : (q == 0)%Q -> Binary64.of_Q q = SpecFloat.S754_zero false.
Proof. intros Hq. by rewrite (of_Q_comp q 0 Hq). Qed.

(** A double times 0.0 is a zero or nan, and so is a sum of such values. *)
Lemma mul_zero (x : Binary64.float) :
  (exists s, Binary64.mul x (SpecFloat.S754_zero false) = SpecFloat.S754_zero s)
  ∨ Binary64.mul x (SpecFloat.S754_zero false) = SpecFloat.S754_nan.
Proof. destruct x as [s|s| |s m e]; simpl; [left|right|right|left]; by eauto. Qed.

Lemma add_zero_or_nan (x y : Binary64.float) :
  (exists s, x = SpecFloat.S754_zero s) ∨ x = SpecFloat.S754_nan ->
  (exists s, y = SpecFloat.S754_zero s) ∨ y = SpecFloat.S754_nan ->
  (exists s, Binary64.add x y = SpecFloat.S754_zero s)
  ∨ Binary64.add x y = SpecFloat.S754_nan.
Proof.
  intros [[sx ->]| ->] [[sy ->]| ->]; [|by right..].
  left. destruct sx, sy; simpl; by eauto.
Qed.

Lemma sum_zero_or_nan (l : list Binary64.float) :
  Forall (fun x => (exists s, x = SpecFloat.S754_zero s) ∨ x = SpecFloat.S754_nan) l ->
  (exists s, Binary64.sum l = SpecFloat.S754_zero s)
  ∨ Binary64.sum l = SpecFloat.S754_nan.
Proof.
  unfold Binary64.sum.
  assert (forall acc,
            (exists s, acc = SpecFloat.S754_zero s) ∨ acc = SpecFloat.S754_nan ->
            Forall (fun x => (exists s, x = SpecFloat.S754_zero s) ∨ x = SpecFloat.S754_nan) l ->
            (exists s, foldl Binary64.add acc l = SpecFloat.S754_zero s)
            ∨ foldl Binary64.add acc l = SpecFloat.S754_nan) as Hgen.
  { induction l as [|x l IH]; intros acc Hacc Hl; [done|].
    apply Forall_cons in Hl as [Hx Hl]. simpl.
    apply IH; [by apply add_zero_or_nan|done]. }
  apply Hgen. left. by eauto.
Qed.

Lemma sum_zeros (l : list Binary64.float) :
  Forall (fun x => x = SpecFloat.S754_zero false) l ->
  Binary64.sum l = SpecFloat.S754_zero false.
Proof.
  unfold Binary64.sum. induction 1 as [|x l -> _ IH]; [done|]. exact IH.
Qed.

(** X19.  The nan of a zero weight sum is what float64 arithmetic returns as
    well.  With students.id a primary key and every grade row within the
    bounds of the form, a student who has entries in the class whose weights
    sum to zero gets one row in the frame as computed in binary64; its pesos
    is 0.0 and its promedio is nan: every product is 0.0 or nan, so suma is,
    the division by 0.0 gives nan and round(2) keeps it. *)
Theorem avg_df64_zero_weights (d : db) (c : Z) (s : Student.row) :
  students_pk d -> grades_in_range d -> s ∈ rows (students d) ->
  let es := grade_entries d c (Student.id s) in
  es ≠ [] -> (sum_Q (Grade.weight <$> es) == 0)%Q ->
  exists r, filter (fun r => Avg64.id r = Student.id s) (avg_df64 d c) = [r]
    ∧ Avg64.pesos r = SpecFloat.S754_zero false
    ∧ Avg64.promedio r = SpecFloat.S754_nan.
Proof.
  intros Hpk Hrange Hs es Hne Hsum.
  destruct (avg_df64_row d c s Hpk Hs Hne)
    as (r & _ & _ & Hfil & _ & _ & Hsuma & Hpesos & Hprom).
  fold es in Hsuma, Hpesos, Hprom.
  assert (Forall (fun g => (Grade.weight g == 0)%Q) es) as Hzero.
  { pose proof (sum_Q_zero _ (grade_entries_in_range d c (Student.id s) Hrange) Hsum)
      as Hall.
    by rewrite Forall_fmap in Hall. }
  assert (Avg64.pesos r = SpecFloat.S754_zero false) as Hp0.
  { rewrite Hpesos. apply sum_zeros. rewrite Forall_fmap.
    eapply Forall_impl; [exact Hzero|]. intros g Hg. by apply of_Q_zero. }
  exists r. split; [done|]. split; [done|].
  rewrite Hprom, <- Hpesos, Hp0.
  destruct (sum_zero_or_nan
              ((fun g => Binary64.mul (Binary64.of_Q (Grade.grade g))
                                      (Binary64.of_Q (Grade.weight g))) <$> es))
    as [[sg ->]| ->].
  - rewrite Forall_fmap. eapply Forall_impl; [exact Hzero|].
    intros g Hg. simpl. rewrite (of_Q_zero _ Hg). apply mul_zero.
  - by destruct sg.
  - done.
Qed.

Lemma avg_df64_zero_weights_witness :
  exists r, filter (fun r => Avg64.id r = 2) (avg_df64 escuela_notas 7) = [r]
    ∧ Avg64.pesos r = SpecFloat.S754_zero false
    ∧ Avg64.promedio r = SpecFloat.S754_nan.
Proof.
  assert (students_pk escuela_notas) as Hpk by (unfold students_pk; compute_done).
  assert (maria ∈ rows (students escuela_notas)) as Hin by (vm_compute; right; left).
  apply (avg_df64_zero_weights escuela_notas 7 maria Hpk escuela_notas_in_range Hin);
    by vm_compute.
Defined.
